(** * type_safe: strong typedefs and their generated operators

    A verification model of

    - [include/type_safe/detail/assert.hpp]  (the assertion primitive), and
    - [include/type_safe/strong_typedef.hpp] (the wrapper, its accessors and
      the operator generators of namespace [strong_typedef_op]).

    The run-time behaviour of every generated function is embedded as a Rocq
    function over an arbitrary representation type [T]; functions that take
    their operands by reference act on a store of objects.  What the header
    decides at compile time (which overloads take part in overload
    resolution) is embedded as boolean functions over a small universe of
    C++ types. *)

From Stdlib Require Import ZArith Bool List Lia.
From stdpp Require Import base option gmap strings list.

Local Open Scope Z_scope.

(** ** What the header takes from the language itself *)

(** [T()]: value initialisation (zero for scalars, the default constructor
    for classes). *)
Class ValueInitializable (T : Type) := value_initialized : T.

(** The state a move leaves in its source ([T(std::move(x))], [y = std::move(x)]).
    For scalars it is the identity. *)
Class Movable (T : Type) := moved_from : T -> T.

#[global] Instance Z_value_initializable : ValueInitializable Z := 0.
#[global] Instance Z_movable : Movable Z := fun z => z.
#[global] Instance bool_value_initializable : ValueInitializable bool := false.
#[global] Instance unit_value_initializable : ValueInitializable unit := tt.

(** ** detail/assert.hpp *)

Module Assert.

(** [debug_assert::source_location]. *)
Record source_location := { file_name : string; line_number : Z }.

(** What a call does to the world outside: the handler's report, and
    [std::abort()]. *)
Inductive effect :=
| handle (loc : source_location) (expression message : string)
| abort.

(** A computation that may report and may terminate the process: the effects
    in order, and the value when control comes back to the caller. *)
Record run (A : Type) := Run { trace : list effect; result : option A }.
Arguments Run {A} _ _.
Arguments trace {A} _.
Arguments result {A} _.

Definition ret {A} (a : A) : run A := Run [] (Some a).

Definition bind {A B} (m : run A) (k : A -> run B) : run B :=
  match result m with
  | Some a => Run (trace m ++ trace (k a)) (result (k a))
  | None => Run (trace m) None
  end.

(** The comma operator [e1, e2]. *)
Notation "e1 ',,' e2" := (bind e1 (fun _ => e2)) (at level 100, right associativity).

(** [assert_handler{}.handle(loc, expression, message)]: the inherited
    [debug_assert::default_handler::handle], which reports and returns. *)
Definition assert_handler_handle (loc : source_location) (expression message : string)
  : run unit := Run [handle loc expression message] (Some tt).

(** [std::abort()] never returns. *)
Definition std_abort : run unit := Run [abort] None.

(** [#if TYPE_SAFE_ENABLE_ASSERTIONS]: the macro is an integer, defined as [1]
    unless the build overrides it. *)
Definition TYPE_SAFE_ENABLE_ASSERTIONS_default : Z := 1.
Definition assertions_enabled (TYPE_SAFE_ENABLE_ASSERTIONS : Z) : bool :=
  negb (TYPE_SAFE_ENABLE_ASSERTIONS =? 0).

(** [template <typename Return> constexpr Return constexpr_assert(condition, loc, message)]. *)
Definition constexpr_assert (TYPE_SAFE_ENABLE_ASSERTIONS : Z)
    {Return : Type} `{ValueInitializable Return}
    (condition : bool) (loc : source_location) (message : string) : run Return :=
  if assertions_enabled TYPE_SAFE_ENABLE_ASSERTIONS then
    if condition then ret value_initialized
    else assert_handler_handle loc EmptyString message ,, std_abort ,, ret value_initialized
  else ret value_initialized.

(** The process is terminated when control never comes back. *)
Definition terminated {A} (r : run A) : bool :=
  match result r with None => true | Some _ => false end.

End Assert.

(** ** Objects and references

    Functions of the header that take an operand by reference ([swap], the
    compound assignments, [++] and [--]) are run on a store that maps the
    address of every live object to its current state; a reference is an
    address, so two references may name the same object.  A computation
    yields [None] where the C++ program has no defined result (a dangling
    reference, or an operator of the representation that is undefined or
    ill-formed on these operands). *)

Abbreviation reference := positive (only parsing).

Definition stateful (St A : Type) : Type := St -> option (A * St).

Definition st_ret {St A} (a : A) : stateful St A := fun s => Some (a, s).

Definition st_bind {St A B} (m : stateful St A) (k : A -> stateful St B)
  : stateful St B :=
  fun s => match m s with
           | Some (a, s') => k a s'
           | None => None
           end.

(** An operation of the representation that may be undefined. *)
Definition st_lift {St A} (o : option A) : stateful St A :=
  fun s => match o with Some a => Some (a, s) | None => None end.

Declare Scope stateful_scope.
Delimit Scope stateful_scope with stateful.
Notation "x <- m ;; k" := (st_bind m (fun x => k))
  (at level 100, m at next level, right associativity) : stateful_scope.
Notation "m ;; k" := (st_bind m (fun _ => k))
  (at level 100, right associativity) : stateful_scope.

(** ** strong_typedef.hpp: the wrapper *)

(** [template <class Tag, typename T> class strong_typedef]: one private
    member [T value_]. *)
Record strong_typedef (Tag T : Type) : Type := Build { value_ : T }.
Arguments Build {Tag T} _.
Arguments value_ {Tag T} _.

Section wrapper.
Context {Tag T : Type}.
Context `{ValueInitializable T} `{Movable T}.

Abbreviation S := (strong_typedef Tag T).

(** [constexpr strong_typedef() : value_()]. *)
Definition default_constructor : S := Build value_initialized.

(** [explicit constexpr strong_typedef(const T& value) : value_(value)]. *)
Definition copy_constructor (value : T) : S := Build value.

(** [explicit constexpr strong_typedef(T&& value) : value_(static_cast<T&&>(value))]:
    the new wrapper, and what the move leaves in [value]. *)
Definition move_constructor (value : T) : S * T := (Build value, moved_from value).

(** The four explicit conversion operators return a reference to [value_];
    they differ in the kind of reference only.  Read through, each gives the
    stored value. *)
Definition operator_T_ref (this : S) : T := value_ this.
Definition operator_const_T_ref (this : S) : T := value_ this.
Definition operator_T_rvalue_ref (this : S) : T := value_ this.
Definition operator_const_T_rvalue_ref (this : S) : T := value_ this.

(** [get(strong_typedef<Tag, T>&)] and its three siblings:
    [static_cast<T&>(type)] and the like. *)
Definition get (type : S) : T := operator_T_ref type.
Definition get_const (type : S) : T := operator_const_T_ref type.
Definition get_rvalue (type : S) : T := operator_T_ref type.
Definition get_const_rvalue (type : S) : T := operator_const_T_ref type.

(** [T v = get(std::move(w))]: the extracted value, and the wrapper the move
    leaves behind. *)
Definition extract_by_move (type : S) : T * S :=
  (get_rvalue type, Build (moved_from (value_ type))).

(** Access to the [value_] member of the wrapper stored at an address:
    what [static_cast<T&>(a)] is read and written through. *)
Definition read_value (a : reference) : stateful (gmap positive S) T :=
  fun h => match h !! a with
           | Some obj => Some (operator_T_ref obj, h)
           | None => None
           end.

Definition write_value (a : reference) (v : T) : stateful (gmap positive S) unit :=
  fun h => match h !! a with
           | Some _ => Some (tt, <[a := Build v]> h)
           | None => None
           end.

(** [std::swap(T& a, T& b)] on two [value_] members:
    [T tmp(std::move(a)); a = std::move(b); b = std::move(tmp);]. *)
Definition std_swap (a b : reference) : stateful (gmap positive S) unit :=
  (tmp <- read_value a;;
   write_value a (moved_from tmp);;
   vb <- read_value b;;
   write_value b (moved_from vb);;
   write_value a vb;;
   write_value b tmp)%stateful.

(** [friend void swap(strong_typedef& a, strong_typedef& b) noexcept]:
    [using std::swap; swap(static_cast<T&>(a), static_cast<T&>(b));]. *)
Definition swap (a b : reference) : stateful (gmap positive S) unit :=
  std_swap a b.

End wrapper.

(** ** strong_typedef_op: the operators a representation offers

    Every generated operator forwards to the operator of the same name on
    the representation.  What that operator computes is the
    representation's business; the header adds nothing to it. *)

(** The operator tokens the generators are instantiated with. *)
Inductive binary_operator :=
| Plus | Minus | Star | Slash | Percent     (* + - * / % *)
| Pipe | Caret | Amp                        (* | ^ & *)
| ShiftLeft | ShiftRight.                   (* << >> *)

Inductive comparison_operator :=
| EqEq | NotEq                              (* == != *)
| Less | LessEq | Greater | GreaterEq.      (* < <= > >= *)

Inductive unary_operator := UnaryPlus | UnaryMinus | Tilde.   (* + - ~ *)

(** The operators of a representation type [T].  [None]: the expression is
    undefined (or not well-formed) for these operands. *)
Class Representation (T : Type) := {
  (** [x Op y], brought back to [T] as the explicit constructor of the
      wrapper receives it *)
  rep_binary : binary_operator -> T -> T -> option T;
  (** [x Op y] for a comparison *)
  rep_compare : comparison_operator -> T -> T -> option bool;
  (** the value of [x] after [x Op= y] *)
  rep_compound : binary_operator -> T -> T -> option T;
  (** the value of [x] after [std::move(x) Op= y]; built-in types reject an
      rvalue on the left of an assignment *)
  rep_compound_rvalue : binary_operator -> T -> T -> option T;
  (** the value of [x] after [++x], after [--x] *)
  rep_increment : T -> option T;
  rep_decrement : T -> option T;
  (** [+x], [-x], [~x] *)
  rep_unary : unary_operator -> T -> option T
}.

(** *** The representation [int]

    A 32-bit two's complement [int], as a [Z] within its range.  An
    arithmetic result outside the range is undefined, as is a division by
    zero.  A shift is undefined for a count that is negative or not below
    the width; otherwise [x << y] is [x * 2^y] brought into the range
    modulo [2^32], and [x >> y] is the arithmetic shift, [x / 2^y] rounded
    down, for a negative [x] as well. *)
Module Int.

Definition min : Z := - 2 ^ 31.
Definition max : Z := 2 ^ 31 - 1.

Definition representable (z : Z) : bool := (min <=? z) && (z <=? max).

Definition checked (z : Z) : option Z := if representable z then Some z else None.

(** The value in the range that is congruent to [z] modulo [2^32]. *)
Definition wrap (z : Z) : Z := (z - min) mod 2 ^ 32 + min.

Definition shift_count (y : Z) : bool := (0 <=? y) && (y <? 32).

Definition binary (op : binary_operator) (x y : Z) : option Z :=
  match op with
  | Plus => checked (x + y)
  | Minus => checked (x - y)
  | Star => checked (x * y)
  | Slash => if y =? 0 then None else checked (Z.quot x y)
  | Percent =>
      if y =? 0 then None
      else if representable (Z.quot x y) then Some (Z.rem x y) else None
  | Pipe => Some (Z.lor x y)
  | Caret => Some (Z.lxor x y)
  | Amp => Some (Z.land x y)
  | ShiftLeft => if shift_count y then Some (wrap (Z.shiftl x y)) else None
  | ShiftRight => if shift_count y then Some (Z.shiftr x y) else None
  end.

Definition compare (op : comparison_operator) (x y : Z) : option bool :=
  Some match op with
       | EqEq => x =? y
       | NotEq => negb (x =? y)
       | Less => x <? y
       | LessEq => x <=? y
       | Greater => x >? y
       | GreaterEq => x >=? y
       end.

Definition unary (op : unary_operator) (x : Z) : option Z :=
  match op with
  | UnaryPlus => Some x
  | UnaryMinus => checked (- x)
  | Tilde => Some (Z.lnot x)
  end.

End Int.

#[global] Instance int_representation : Representation Z := {
  rep_binary := Int.binary;
  rep_compare := Int.compare;
  rep_compound := Int.binary;
  rep_compound_rvalue := fun _ _ _ => None;
  rep_increment := fun x => Int.checked (x + 1);
  rep_decrement := fun x => Int.checked (x - 1);
  rep_unary := Int.unary
}.

(** ** strong_typedef_op: the generated operators *)

(** How an argument reaches a generated operator: the [const X&] overload
    takes an lvalue, the [X&&] overload a temporary. *)
Inductive value_category := lvalue | rvalue.

Section generators.
Context {Tag T : Type} `{Representation T}.

Abbreviation S := (strong_typedef Tag T).

(** [detail::get_underlying(const StrongTypedef&)] and
    [detail::get_underlying(StrongTypedef&&)]: both [return get(...)]. *)
Definition get_underlying_const (type : S) : T := get_const type.
Definition get_underlying_rvalue (type : S) : T := get_rvalue type.

Definition get_underlying (c : value_category) (type : S) : T :=
  match c with
  | lvalue => get_underlying_const type
  | rvalue => get_underlying_rvalue type
  end.

(** [Result(...)] for [Result = StrongTypedef]: the explicit constructor. *)
Definition Result_StrongTypedef (value : T) : S := Build value.

(** [Result(...)] for [Result = bool]. *)
Definition Result_bool (value : bool) : bool := value.

Section MAKE_OP.
(** The macro's parameters: the operator on the representation, with the type
    [U] of its result, and the type the result is wrapped in. *)
Context {U R : Type} (Op : T -> T -> option U) (Result : U -> R).

(** [TYPE_SAFE_DETAIL_MAKE_OP(Op, Name, Result)], the four overloads over
    [(Name<S>, Name<S>)].  Each casts a left operand to an lvalue, whichever
    way it came, and a right operand to the kind of reference it came by. *)
Definition TYPE_SAFE_DETAIL_MAKE_OP (lhs_category rhs_category : value_category)
    (lhs rhs : S) : option R :=
  Result <$> Op (get_underlying lvalue lhs) (get_underlying rhs_category rhs).

(** The four "mixed" overloads of the same macro, [(Name<S>, Other&&)] and
    [(Other&&, Name<S>)]: the other operand is passed to
    [get_underlying<StrongTypedef>], that is, it is first converted to the
    strong typedef itself by [to_StrongTypedef], the implicit conversion the
    guard [enable_if_convertible<Other&&, StrongTypedef>] asks for. *)
Context {Other : Type} (to_StrongTypedef : Other -> S).

Definition TYPE_SAFE_DETAIL_MAKE_OP_other_rhs (lhs_category : value_category)
    (lhs : S) (rhs : Other) : option R :=
  Result <$> Op (get_underlying lhs_category lhs)
                (get_underlying rvalue (to_StrongTypedef rhs)).

Definition TYPE_SAFE_DETAIL_MAKE_OP_other_lhs (rhs_category : value_category)
    (lhs : Other) (rhs : S) : option R :=
  Result <$> Op (get_underlying rvalue (to_StrongTypedef lhs))
                (get_underlying rhs_category rhs).

End MAKE_OP.

Section MAKE_OP_MIXED.
(** [TYPE_SAFE_DETAIL_MAKE_OP_MIXED(Op, Name, Result)] over
    [(Name<S, OtherArg>, Other&&)] and [(Other&&, Name<S, OtherArg>)]: the
    operator is applied to the representation and the other operand as it
    is. *)
Context {Other U R : Type}.
Context (Op_rhs : T -> Other -> option U) (Op_lhs : Other -> T -> option U).
Context (Result : U -> R).

Definition TYPE_SAFE_DETAIL_MAKE_OP_MIXED_rhs (lhs_category : value_category)
    (lhs : S) (rhs : Other) : option R :=
  Result <$> Op_rhs (match lhs_category with
                     | lvalue => get_const lhs
                     | rvalue => get_rvalue lhs
                     end) rhs.

Definition TYPE_SAFE_DETAIL_MAKE_OP_MIXED_lhs (rhs_category : value_category)
    (lhs : Other) (rhs : S) : option R :=
  Result <$> Op_lhs lhs (match rhs_category with
                         | lvalue => get_const rhs
                         | rvalue => get_rvalue rhs
                         end).

End MAKE_OP_MIXED.

(** [TYPE_SAFE_DETAIL_MAKE_OP_COMPOUND(Op=, Other)], the four friends
    [operator Op=(StrongTypedef&|&&, const Other&|Other&&)].  [rhs] reads the
    right operand, as [static_cast<const type&>(rhs)] and
    [std::move(static_cast<type&>(rhs))] do.  With an lvalue on
    the left the representation's [Op=] is applied to [static_cast<type&>(lhs)],
    with a temporary to [std::move(static_cast<type&>(lhs))]; the reference
    [lhs] is returned. *)
Definition TYPE_SAFE_DETAIL_MAKE_OP_COMPOUND (Op : binary_operator)
    (lhs_category : value_category) (lhs : reference)
    (rhs : stateful (gmap positive S) T) : stateful (gmap positive S) reference :=
  (x <- read_value lhs;;
   y <- rhs;;
   v <- st_lift (match lhs_category with
                 | lvalue => rep_compound Op x y
                 | rvalue => rep_compound_rvalue Op x y
                 end);;
   write_value lhs v;;
   st_ret lhs)%stateful.

(** *** TYPE_SAFE_DETAIL_MAKE_STRONG_TYPEDEF_OP(Name, Op)

    [addition], [subtraction], [multiplication], [division], [modulo],
    [bitwise_or], [bitwise_xor], [bitwise_and], and their [mixed_] forms. *)

(** [struct Name]: [operator Op=(StrongTypedef&, const StrongTypedef&)] and
    its three siblings; the right operand is another wrapper, which may be
    the left one. *)
Definition compound_assignment (Op : binary_operator) (lhs_category : value_category)
    (lhs rhs : reference) : stateful (gmap positive S) reference :=
  TYPE_SAFE_DETAIL_MAKE_OP_COMPOUND Op lhs_category lhs (read_value rhs).

(** [TYPE_SAFE_DETAIL_MAKE_OP(Op, Name, StrongTypedef)]. *)
Definition binary_operation (Op : binary_operator)
    (lhs_category rhs_category : value_category) (lhs rhs : S) : option S :=
  TYPE_SAFE_DETAIL_MAKE_OP (rep_binary Op) Result_StrongTypedef
    lhs_category rhs_category lhs rhs.

(** [struct mixed_Name]: [operator Op=(StrongTypedef&, const Other&)] and
    siblings, for an [Other] that [static_cast<const type&>] turns into the
    representation by [to_type]. *)
Definition mixed_compound_assignment {Other : Type} (to_type : Other -> T)
    (Op : binary_operator) (lhs_category : value_category)
    (lhs : reference) (rhs : Other) : stateful (gmap positive S) reference :=
  TYPE_SAFE_DETAIL_MAKE_OP_COMPOUND Op lhs_category lhs (st_ret (to_type rhs)).

(** [TYPE_SAFE_DETAIL_MAKE_OP(==, equality_comparison, bool)] and the
    like for [!=], [<], [<=], [>], [>=]. *)
Definition comparison (Op : comparison_operator)
    (lhs_category rhs_category : value_category) (lhs rhs : S) : option bool :=
  TYPE_SAFE_DETAIL_MAKE_OP (rep_compare Op) Result_bool
    lhs_category rhs_category lhs rhs.

(** *** increment, decrement *)

(** [StrongTypedef& operator++()]: increments [value_] in place and returns
    [*this]. *)
Definition pre_increment (this : reference) : stateful (gmap positive S) reference :=
  (x <- read_value this;;
   v <- st_lift (rep_increment x);;
   write_value this v;;
   st_ret this)%stateful.

(** [auto result = static_cast<StrongTypedef&>( *this)]: a copy of the object. *)
Definition copy_object (this : reference) : stateful (gmap positive S) S :=
  (x <- read_value this;; st_ret (copy_constructor x))%stateful.

(** [StrongTypedef operator++(int)]:
    [auto result = ...; ++*this; return result;]. *)
Definition post_increment (this : reference) : stateful (gmap positive S) S :=
  (result <- copy_object this;;
   pre_increment this;;
   st_ret result)%stateful.

(** [StrongTypedef& operator--()]. *)
Definition pre_decrement (this : reference) : stateful (gmap positive S) reference :=
  (x <- read_value this;;
   v <- st_lift (rep_decrement x);;
   write_value this v;;
   st_ret this)%stateful.

(** [StrongTypedef operator--(int)]. *)
Definition post_decrement (this : reference) : stateful (gmap positive S) S :=
  (result <- copy_object this;;
   pre_decrement this;;
   st_ret result)%stateful.

(** *** unary_plus, unary_minus, complement:
    [StrongTypedef(+get(...))], [StrongTypedef(-get(...))],
    [StrongTypedef(~get(...))]. *)
Definition unary_operation (Op : unary_operator) (c : value_category) (lhs : S)
  : option S :=
  Result_StrongTypedef <$> rep_unary Op (match c with
                                         | lvalue => get_const lhs
                                         | rvalue => get_rvalue lhs
                                         end).

End generators.

(** ** What the header decides at compile time

    Which generated operator a use such as [a + b] selects depends on the
    operand types only: on the capability bases of the classes involved and
    on the [std::enable_if] guards of the operator templates.  The guards are
    written with [std::decay], [std::is_same], [std::is_base_of] and
    [std::is_convertible]; these are given here over a universe of arithmetic
    types and of classes described by what the traits look at. *)

Module Overloads.

Inductive fundamental := Bool | Char | Int | Long | Double.

Inductive type :=
| Fundamental (f : fundamental)
| Class (name : string).

#[global] Instance fundamental_eq_dec : EqDecision fundamental.
Proof. solve_decision. Defined.
#[global] Instance type_eq_dec : EqDecision type.
Proof. solve_decision. Defined.

(** A type as a template parameter may be deduced: possibly const, possibly
    a reference. *)
Inductive reference_kind := no_reference | lvalue_reference | rvalue_reference.

Record qualified_type := Qualified {
  unqualified : type;
  is_const : bool;
  reference_of : reference_kind
}.

(** [Other&&], with reference collapsing. *)
Definition add_rvalue_reference (q : qualified_type) : qualified_type :=
  match reference_of q with
  | no_reference => Qualified (unqualified q) (is_const q) rvalue_reference
  | _ => q
  end.

(** [std::remove_reference]. *)
Definition remove_reference (q : qualified_type) : qualified_type :=
  Qualified (unqualified q) (is_const q) no_reference.

(** [std::decay]: the reference goes, then the top-level const (the universe
    has neither arrays nor functions). *)
Definition decay (q : qualified_type) : type := unqualified q.

(** The capability templates of namespace [strong_typedef_op], with those
    template arguments that matter to the choice of a binary operator. *)
Inductive capability :=
| equality_comparison | mixed_equality_comparison (Other : type)
| relational_comparison | mixed_relational_comparison (Other : type)
| addition | mixed_addition (Other : type)
| subtraction | mixed_subtraction (Other : type)
| multiplication | mixed_multiplication (Other : type)
| division | mixed_division (Other : type)
| modulo | mixed_modulo (Other : type)
| increment | decrement | unary_plus | unary_minus
| integer_arithmetic | floating_point_arithmetic
| complement
| bitwise_or | mixed_bitwise_or (Other : type)
| bitwise_xor | mixed_bitwise_xor (Other : type)
| bitwise_and | mixed_bitwise_and (Other : type)
| bitmask
| bitshift (IntT : type)
| dereference | array_subscript
| iterator | input_iterator | output_iterator | forward_iterator
| bidirectional_iterator
| random_access_iterator (Distance : type)
| input_operator | output_operator.

#[global] Instance capability_eq_dec : EqDecision capability.
Proof. solve_decision. Defined.

(** The base classes each capability struct is declared with. *)
Definition direct_bases (c : capability) : list capability :=
  match c with
  | integer_arithmetic =>
      [unary_plus; unary_minus; addition; subtraction; multiplication;
       division; modulo; increment; decrement]
  | floating_point_arithmetic =>
      [unary_plus; unary_minus; addition; subtraction; multiplication; division]
  | bitmask => [complement; bitwise_or; bitwise_xor; bitwise_and]
  | iterator => [dereference; increment]
  | input_iterator => [iterator; equality_comparison]
  | output_iterator => [iterator]
  | forward_iterator => [input_iterator]
  | bidirectional_iterator => [forward_iterator; decrement]
  | random_access_iterator _ =>
      [bidirectional_iterator; array_subscript; relational_comparison]
  | _ => []
  end.

(** A capability with all its direct and indirect bases; the inheritance
    graph of the header is six levels deep at most. *)
Fixpoint with_bases (depth : nat) (c : capability) : list capability :=
  c :: match depth with
       | O => []
       | S d => flat_map (with_bases d) (direct_bases c)
       end.

Definition capability_with_bases (c : capability) : list capability := with_bases 6 c.

(** Members that convert: a one-argument constructor, by the type of its
    parameter, or a conversion function, by its target. *)
Inductive specifier := explicit | converting.

(** A class, as far as the traits and overload resolution can tell:

    - [strong_typedef_base = Some T]: the class is declared
      [struct C : strong_typedef<C, T>, ... { using strong_typedef::strong_typedef; }];
    - [capabilities]: its capability bases, each instantiated at [C] itself,
      as in [strong_typedef_op::addition<C>];
    - [other_bases]: further public base classes;
    - [constructors], [conversions]: the one-argument constructors and the
      conversion functions the class declares itself. *)
Record class_declaration := {
  strong_typedef_base : option type;
  capabilities : list capability;
  other_bases : list string;
  constructors : list (specifier * type);
  conversions : list (specifier * type)
}.

(** The constructors and conversion operators of [strong_typedef<Tag, T>]:
    [explicit strong_typedef(const T&)], [explicit strong_typedef(T&&)];
    [explicit operator T&()], [explicit operator const T&() const],
    [explicit operator T&&() &&], [explicit operator const T&&() const&&]. *)
Definition strong_typedef_constructors (T : type) : list (specifier * type) :=
  [(explicit, T); (explicit, T)].
Definition strong_typedef_conversions (T : type) : list (specifier * type) :=
  [(explicit, T); (explicit, T); (explicit, T); (explicit, T)].

Abbreviation translation_unit := (gmap string class_declaration).

Section traits.
Context (classes : translation_unit).

(** [derived] is [base] or has it among its direct or indirect bases. *)
Fixpoint derives_from_upto (depth : nat) (derived base : string) : bool :=
  bool_decide (derived = base)
  || match depth, classes !! derived with
     | S d, Some decl =>
         existsb (fun b => derives_from_upto d b base) (other_bases decl)
     | _, _ => false
     end.

Definition derives_from (derived base : string) : bool :=
  derives_from_upto (size classes) derived base.

(** All one-argument constructors of a class: its own and those the
    using-declaration inherits from [strong_typedef]. *)
Definition all_constructors (c : string) : list (specifier * type) :=
  match classes !! c with
  | Some decl =>
      constructors decl
      ++ match strong_typedef_base decl with
         | Some T => strong_typedef_constructors T
         | None => []
         end
  | None => []
  end.

(** All conversion functions of a class: its own, those of [strong_typedef]
    and those of its other bases. *)
Fixpoint all_conversions_upto (depth : nat) (c : string) : list (specifier * type) :=
  match classes !! c with
  | Some decl =>
      conversions decl
      ++ match strong_typedef_base decl with
         | Some T => strong_typedef_conversions T
         | None => []
         end
      ++ match depth with
         | S d => flat_map (all_conversions_upto d) (other_bases decl)
         | O => []
         end
  | None => []
  end.

Definition all_conversions (c : string) : list (specifier * type) :=
  all_conversions_upto (size classes) c.

(** [std::is_same]. *)
Definition is_same (A B : type) : bool := bool_decide (A = B).

(** [std::is_base_of<Base, Derived>]. *)
Definition is_base_of (Base Derived : type) : bool :=
  match Base, Derived with
  | Class b, Class d => derives_from d b
  | _, _ => false
  end.

(** A standard conversion: between arithmetic types, or from a class to
    itself or to one of its bases. *)
Definition standard_conversion (From To : type) : bool :=
  match From, To with
  | Fundamental _, Fundamental _ => true
  | Class d, Class b => derives_from d b
  | _, _ => false
  end.

Definition is_converting (m : specifier * type) : bool :=
  match fst m with converting => true | explicit => false end.

(** [To] has a constructor that is not [explicit] and accepts a [From]. *)
Definition converting_constructor (From To : type) : bool :=
  match To with
  | Class c =>
      existsb (fun m => is_converting m && standard_conversion From (snd m))
              (all_constructors c)
  | Fundamental _ => false
  end.

(** [From] has a conversion function that is not [explicit] and yields a [To]. *)
Definition conversion_function (From To : type) : bool :=
  match From with
  | Class c =>
      existsb (fun m => is_converting m && standard_conversion (snd m) To)
              (all_conversions c)
  | Fundamental _ => false
  end.

(** [std::is_convertible<From, To>]: an implicit conversion exists, that is
    a standard conversion, or a constructor of [To] or a conversion function
    of [From] that is not [explicit], with standard conversions around it. *)
Definition is_convertible (From To : type) : bool :=
  standard_conversion From To
  || converting_constructor From To
  || conversion_function From To.

(** [underlying_type<StrongTypedef>]: the [T] of the [strong_typedef<Tag, T>]
    the class is, or derives from. *)
Fixpoint underlying_type_upto (depth : nat) (c : string) : option type :=
  match classes !! c with
  | Some decl =>
      match strong_typedef_base decl, depth with
      | Some T, _ => Some T
      | None, S d =>
          match omap (underlying_type_upto d) (other_bases decl) with
          | [T] => Some T
          | _ => None
          end
      | None, O => None
      end
  | None => None
  end.

Definition underlying_type (c : string) : option type :=
  underlying_type_upto (size classes) c.

(** [detail::enable_if_convertible<From, To>]: the type exists, so the
    overload it guards takes part in overload resolution, exactly when this
    holds. *)
Definition enable_if_convertible (From : qualified_type) (To : type) : bool :=
  negb (is_same (decay From) To)
  && negb (is_base_of To (decay From))
  && is_convertible (decay From) To.

(** [detail::enable_if_convertible_same<From, To>]. *)
Definition enable_if_convertible_same (From : qualified_type) (To : type) : bool :=
  is_convertible (decay From) To.

(** The guard on the "mixed" overloads of [TYPE_SAFE_DETAIL_MAKE_OP]:
    [typename = detail::enable_if_convertible<Other&&, StrongTypedef>]. *)
Definition MAKE_OP_mixed_enabled (StrongTypedef : string) (Other : qualified_type) : bool :=
  enable_if_convertible (add_rvalue_reference Other) (Class StrongTypedef).

(** The guard on the overloads of [TYPE_SAFE_DETAIL_MAKE_OP_MIXED]:
    [typename = detail::enable_if_convertible_same<Other&&, OtherArg>]. *)
Definition MAKE_OP_MIXED_enabled (OtherArg : type) (Other : qualified_type) : bool :=
  enable_if_convertible_same (add_rvalue_reference Other) OtherArg.

(** The first guard as the specification words it: [Other], with references
    stripped, is not identical to [S], is not derived from [S], and is
    implicitly convertible to the representation type of [S]. *)
Definition specified_mixed_enabled (StrongTypedef : string) (Other : qualified_type) : bool :=
  let stripped := remove_reference Other in
  negb (bool_decide (unqualified stripped = Class StrongTypedef) && negb (is_const stripped))
  && negb (is_base_of (Class StrongTypedef) (unqualified stripped))
  && match underlying_type StrongTypedef with
     | Some T => is_convertible (unqualified stripped) T
     | None => false
     end.

End traits.

(** *** The operator templates and their candidates *)

(** A binary operator as written in an expression. *)
Inductive operator :=
| Arithmetic (op : binary_operator)
| Comparison (op : comparison_operator).

(** The [Name] each instantiation of [TYPE_SAFE_DETAIL_MAKE_OP(Op, Name, Result)]
    is made with; there is none for [<<] and [>>]. *)
Definition MAKE_OP_Name (op : operator) : option capability :=
  match op with
  | Comparison (EqEq | NotEq) => Some equality_comparison
  | Comparison (Less | LessEq | Greater | GreaterEq) => Some relational_comparison
  | Arithmetic Plus => Some addition
  | Arithmetic Minus => Some subtraction
  | Arithmetic Star => Some multiplication
  | Arithmetic Slash => Some division
  | Arithmetic Percent => Some modulo
  | Arithmetic Pipe => Some bitwise_or
  | Arithmetic Caret => Some bitwise_xor
  | Arithmetic Amp => Some bitwise_and
  | Arithmetic (ShiftLeft | ShiftRight) => None
  end.

(** The [Name<StrongTypedef, OtherArg>] each instantiation of
    [TYPE_SAFE_DETAIL_MAKE_OP_MIXED(Op, Name, Result)] is made with. *)
Definition MAKE_OP_MIXED_Name (op : operator) (OtherArg : type) : capability :=
  match op with
  | Comparison (EqEq | NotEq) => mixed_equality_comparison OtherArg
  | Comparison (Less | LessEq | Greater | GreaterEq) => mixed_relational_comparison OtherArg
  | Arithmetic Plus => mixed_addition OtherArg
  | Arithmetic Minus => mixed_subtraction OtherArg
  | Arithmetic Star => mixed_multiplication OtherArg
  | Arithmetic Slash => mixed_division OtherArg
  | Arithmetic Percent => mixed_modulo OtherArg
  | Arithmetic Pipe => mixed_bitwise_or OtherArg
  | Arithmetic Caret => mixed_bitwise_xor OtherArg
  | Arithmetic Amp => mixed_bitwise_and OtherArg
  | Arithmetic (ShiftLeft | ShiftRight) => bitshift OtherArg
  end.

(** The second template argument of a capability that has one. *)
Definition second_argument (c : capability) : option type :=
  match c with
  | mixed_equality_comparison A | mixed_relational_comparison A
  | mixed_addition A | mixed_subtraction A | mixed_multiplication A
  | mixed_division A | mixed_modulo A
  | mixed_bitwise_or A | mixed_bitwise_xor A | mixed_bitwise_and A
  | bitshift A | random_access_iterator A => Some A
  | _ => None
  end.

(** An operand of an expression: its type and whether it is an lvalue or a
    temporary. *)
Record operand := Operand { type_of : type; category_of : value_category }.

(** The [Other] a forwarding reference [Other&&] deduces from an operand. *)
Definition deduce_Other (a : operand) : qualified_type :=
  match category_of a with
  | lvalue => Qualified (type_of a) false lvalue_reference
  | rvalue => Qualified (type_of a) false no_reference
  end.

(** The operator functions that can be viable for [lhs Op rhs]. *)
Inductive candidate :=
| builtin_operator
    (* the operator of the language, on arithmetic operands *)
| same_type (StrongTypedef : string)
    (* MAKE_OP over (Name<S>, Name<S>) *)
| other_rhs (StrongTypedef : string) (Other : qualified_type)
    (* MAKE_OP over (Name<S>, Other&&) *)
| other_lhs (StrongTypedef : string) (Other : qualified_type)
    (* MAKE_OP over (Other&&, Name<S>) *)
| mixed_rhs (StrongTypedef : string) (OtherArg : type) (Other : qualified_type)
    (* MAKE_OP_MIXED over (Name<S, OtherArg>, Other&&) *)
| mixed_lhs (StrongTypedef : string) (OtherArg : type) (Other : qualified_type)
    (* MAKE_OP_MIXED over (Other&&, Name<S, OtherArg>) *)
| iterator_and_distance (StrongTypedef : string)
    (* random_access_iterator: operator+/-(const S&, const Distance&) *)
| distance_and_iterator (StrongTypedef : string)
    (* random_access_iterator: operator+(const Distance&, const S&) *)
| iterator_and_iterator (StrongTypedef : string).
    (* random_access_iterator: operator-(const S&, const S&) *)

Section resolution.
Context (classes : translation_unit).

(** The capability bases of a class, direct and indirect, each with the
    strong typedef it is instantiated at. *)
Fixpoint capability_bases_upto (depth : nat) (c : string) : list (string * capability) :=
  match classes !! c with
  | Some decl =>
      map (pair c) (flat_map capability_with_bases (capabilities decl))
      ++ match depth with
         | S d => flat_map (capability_bases_upto d) (other_bases decl)
         | O => []
         end
  | None => []
  end.

Definition capability_bases (t : type) : list (string * capability) :=
  match t with
  | Class c => capability_bases_upto (size classes) c
  | Fundamental _ => []
  end.

(** Deduction of [StrongTypedef] in a parameter [const Name<StrongTypedef>&]
    or [Name<StrongTypedef>&&] from an argument of type [t]: it succeeds when
    [t] has exactly one base of that form. *)
Definition deduce_Name (Name : capability) (t : type) : option string :=
  match List.filter (fun b => bool_decide (snd b = Name)) (capability_bases t) with
  | [b] => Some (fst b)
  | _ => None
  end.

(** The same for [Name<StrongTypedef, OtherArg>]. *)
Definition deduce_mixed_Name (op : operator) (t : type) : option (string * type) :=
  match omap (fun b => A ← second_argument (snd b);
                       if bool_decide (snd b = MAKE_OP_MIXED_Name op A)
                       then Some (fst b, A) else None)
             (capability_bases t) with
  | [d] => Some d
  | _ => None
  end.

(** An operand the built-in operator accepts: of arithmetic type, or of a
    class with a non-explicit conversion function to one. *)
Definition arithmetic_operand (t : type) : bool :=
  match t with
  | Fundamental _ => true
  | Class c =>
      existsb (fun m => is_converting m
                        && match snd m with Fundamental _ => true | Class _ => false end)
              (all_conversions classes c)
  end.

Definition builtin_candidates (lhs rhs : operand) : list candidate :=
  if arithmetic_operand (type_of lhs) && arithmetic_operand (type_of rhs)
  then [builtin_operator] else [].

(** The templates of [TYPE_SAFE_DETAIL_MAKE_OP(Op, Name, Result)]. *)
Definition MAKE_OP_candidates (op : operator) (lhs rhs : operand) : list candidate :=
  match MAKE_OP_Name op with
  | None => []
  | Some Name =>
      let L := deduce_Name Name (type_of lhs) in
      let R := deduce_Name Name (type_of rhs) in
      match L, R with
      | Some l, Some r => if bool_decide (l = r) then [same_type l] else []
      | _, _ => []
      end
      ++ match L with
         | Some l =>
             if MAKE_OP_mixed_enabled classes l (deduce_Other rhs)
             then [other_rhs l (deduce_Other rhs)] else []
         | None => []
         end
      ++ match R with
         | Some r =>
             if MAKE_OP_mixed_enabled classes r (deduce_Other lhs)
             then [other_lhs r (deduce_Other lhs)] else []
         | None => []
         end
  end.

(** The templates of [TYPE_SAFE_DETAIL_MAKE_OP_MIXED(Op, Name, Result)]. *)
Definition MAKE_OP_MIXED_candidates (op : operator) (lhs rhs : operand) : list candidate :=
  match deduce_mixed_Name op (type_of lhs) with
  | Some (l, OtherArg) =>
      if MAKE_OP_MIXED_enabled classes OtherArg (deduce_Other rhs)
      then [mixed_rhs l OtherArg (deduce_Other rhs)] else []
  | None => []
  end
  ++ match deduce_mixed_Name op (type_of rhs) with
     | Some (r, OtherArg) =>
         if MAKE_OP_MIXED_enabled classes OtherArg (deduce_Other lhs)
         then [mixed_lhs r OtherArg (deduce_Other lhs)] else []
     | None => []
     end.

(** The friends of [random_access_iterator<S, T, Distance>], found through
    the classes of the operands.  They are no templates: an argument may be
    converted implicitly to the parameter type. *)
Definition random_access_iterators (lhs rhs : operand) : list (string * type) :=
  omap (fun b => match snd b with
                 | random_access_iterator D => Some (fst b, D)
                 | _ => None
                 end)
       (capability_bases (type_of lhs) ++ capability_bases (type_of rhs)).

Definition iterator_candidates (op : operator) (lhs rhs : operand) : list candidate :=
  flat_map
    (fun it =>
       let StrongTypedef := Class (fst it) in
       let Distance := snd it in
       let S_Distance :=
         if is_convertible classes (type_of lhs) StrongTypedef
            && is_convertible classes (type_of rhs) Distance
         then [iterator_and_distance (fst it)] else [] in
       let Distance_S :=
         if is_convertible classes (type_of lhs) Distance
            && is_convertible classes (type_of rhs) StrongTypedef
         then [distance_and_iterator (fst it)] else [] in
       let S_S :=
         if is_convertible classes (type_of lhs) StrongTypedef
            && is_convertible classes (type_of rhs) StrongTypedef
         then [iterator_and_iterator (fst it)] else [] in
       match op with
       | Arithmetic Plus => S_Distance ++ Distance_S
       | Arithmetic Minus => S_Distance ++ S_S
       | _ => []
       end)
    (remove_dups (random_access_iterators lhs rhs)).

(** Every operator function that is viable for [lhs Op rhs]. *)
Definition viable (op : operator) (lhs rhs : operand) : list candidate :=
  builtin_candidates lhs rhs
  ++ MAKE_OP_candidates op lhs rhs
  ++ MAKE_OP_MIXED_candidates op lhs rhs
  ++ iterator_candidates op lhs rhs.

(** What the compiler makes of [lhs Op rhs]: with no viable function the
    expression is rejected; with one, that one is called; with several, the
    ranking rules of the language decide, which are not modelled. *)
Inductive resolution :=
| no_viable_function
| selected (c : candidate)
| several_viable (cs : list candidate).

Definition resolve (op : operator) (lhs rhs : operand) : resolution :=
  match viable op lhs rhs with
  | [] => no_viable_function
  | [c] => selected c
  | cs => several_viable cs
  end.

End resolution.

(** *** Running the selected operator

    Expressions over [int] values and over strong typedefs of [int]: the
    selected operator function is run as the generators define it, with the
    class of a wrapper object kept beside it. *)

Variant class_tag : Type := .

Inductive value :=
| int_value (z : Z)
| bool_value (b : bool)
| strong_value (class : string) (object : strong_typedef class_tag Z).

Definition type_of_value (v : value) : type :=
  match v with
  | int_value _ => Fundamental Int
  | bool_value _ => Fundamental Bool
  | strong_value c _ => Class c
  end.

Record argument := Argument { value_of : value; passed_as : value_category }.

Definition operand_of (a : argument) : operand :=
  Operand (type_of_value (value_of a)) (passed_as a).

(** [S(v)] as an expression: a temporary. *)
Definition temporary (v : value) : argument := Argument v rvalue.
(** A named variable holding [v]. *)
Definition variable (v : value) : argument := Argument v lvalue.

Inductive outcome :=
| rejected                    (* the expression does not compile *)
| not_modelled                (* outside what this evaluator covers *)
| undefined                   (* the representation's operator is undefined here *)
| yields (v : value).

Definition outcome_of {A} (f : A -> value) (o : option A) : outcome :=
  match o with
  | Some a => yields (f a)
  | None => undefined
  end.

Section evaluation.
Context (classes : translation_unit).

(** The class is a strong typedef of [int]. *)
Definition wraps_int (c : string) : bool :=
  match classes !! c with
  | Some decl => bool_decide (strong_typedef_base decl = Some (Fundamental Int))
  | None => false
  end.

(** The body of the selected function on the given arguments. *)
Definition call (c : candidate) (op : operator) (lhs rhs : argument) : outcome :=
  match c, value_of lhs, value_of rhs with
  | builtin_operator, int_value x, int_value y =>
      match op with
      | Arithmetic o => outcome_of int_value (Int.binary o x y)
      | Comparison o => outcome_of bool_value (Int.compare o x y)
      end
  | same_type s, strong_value cl a, strong_value cr b =>
      if bool_decide (cl = s) && bool_decide (cr = s) && wraps_int s then
        match op with
        | Arithmetic o =>
            outcome_of (strong_value s)
              (binary_operation o (passed_as lhs) (passed_as rhs) a b)
        | Comparison o =>
            outcome_of bool_value
              (comparison o (passed_as lhs) (passed_as rhs) a b)
        end
      else not_modelled
  | mixed_rhs s _ _, strong_value cl a, int_value y =>
      if bool_decide (cl = s) && wraps_int s then
        match op with
        | Arithmetic o =>
            outcome_of (strong_value s)
              (TYPE_SAFE_DETAIL_MAKE_OP_MIXED_rhs (Int.binary o) Result_StrongTypedef
                 (passed_as lhs) a y)
        | Comparison o =>
            outcome_of bool_value
              (TYPE_SAFE_DETAIL_MAKE_OP_MIXED_rhs (Int.compare o) Result_bool
                 (passed_as lhs) a y)
        end
      else not_modelled
  | mixed_lhs s _ _, int_value x, strong_value cr b =>
      if bool_decide (cr = s) && wraps_int s then
        match op with
        | Arithmetic o =>
            outcome_of (strong_value s)
              (TYPE_SAFE_DETAIL_MAKE_OP_MIXED_lhs (Int.binary o) Result_StrongTypedef
                 (passed_as rhs) x b)
        | Comparison o =>
            outcome_of bool_value
              (TYPE_SAFE_DETAIL_MAKE_OP_MIXED_lhs (Int.compare o) Result_bool
                 (passed_as rhs) x b)
        end
      else not_modelled
  | _, _, _ => not_modelled
  end.

(** The expression [lhs Op rhs]. *)
Definition evaluate (op : operator) (lhs rhs : argument) : outcome :=
  match resolve classes op (operand_of lhs) (operand_of rhs) with
  | no_viable_function => rejected
  | selected c => call c op lhs rhs
  | several_viable _ => not_modelled
  end.

End evaluation.

(** *** The wrappers of the examples *)

(** [struct C : strong_typedef<C, T>, caps<C>... { using strong_typedef::strong_typedef; };] *)
Definition strong_typedef_class (T : type) (caps : list capability) : class_declaration :=
  {| strong_typedef_base := Some T;
     capabilities := caps;
     other_bases := [];
     constructors := [];
     conversions := [] |}.

(** [W] and [W2]: two strong typedefs of [int] with [integer_arithmetic];
    [M]: one with [integer_arithmetic] and [mixed_addition<M, int>]. *)
Definition example_classes : translation_unit :=
  <["W" := strong_typedef_class (Fundamental Int) [integer_arithmetic]]>
  (<["W2" := strong_typedef_class (Fundamental Int) [integer_arithmetic]]>
  (<["M" := strong_typedef_class (Fundamental Int)
              [integer_arithmetic; mixed_addition (Fundamental Int)]]> ∅)).

Definition W (z : Z) : value := strong_value "W" (Build z).
Definition W2 (z : Z) : value := strong_value "W2" (Build z).
Definition M (z : Z) : value := strong_value "M" (Build z).

End Overloads.

(** ** strong_typedef_op: dereference, array_subscript and the iterators *)

(** What a representation used as a random access iterator offers besides
    [++], [--] and the comparisons.  [Distance] is [std::ptrdiff_t], taken
    as [Z]. *)
Class IteratorRepresentation (I Elem : Type) := {
  (** the element [*x] refers to *)
  it_dereference : I -> option Elem;
  (** the element [x[i]] refers to *)
  it_subscript : I -> Z -> option Elem;
  (** [x + n], [x - n] *)
  it_plus : I -> Z -> option I;
  it_minus : I -> Z -> option I;
  (** the value of [x] after [x += d], after [x -= d] *)
  it_plus_assign : I -> Z -> option I;
  it_minus_assign : I -> Z -> option I;
  (** [x - y] *)
  it_difference : I -> I -> option Z
}.

Section iterators.
Context {Tag I Elem : Type} `{Representation I} `{IteratorRepresentation I Elem}.

Abbreviation S := (strong_typedef Tag I).

(** [dereference]: [Result& operator*()] and its const sibling return
    [*static_cast<type&>(...)]; [operator->()] returns the representation. *)
Definition operator_star (this : S) : option Elem := it_dereference (operator_T_ref this).
Definition operator_star_const (this : S) : option Elem :=
  it_dereference (operator_const_T_ref this).
Definition operator_arrow (this : S) : I := operator_T_ref this.
Definition operator_arrow_const (this : S) : I := operator_const_T_ref this.

(** [array_subscript]: [static_cast<type&>(...)[i]]. *)
Definition operator_subscript (this : S) (i : Z) : option Elem :=
  it_subscript (operator_T_ref this) i.
Definition operator_subscript_const (this : S) (i : Z) : option Elem :=
  it_subscript (operator_const_T_ref this) i.

(** [random_access_iterator]: [StrongTypedef& operator+=(const Distance& d)]
    and [operator-=]. *)
Definition operator_plus_assign (this : reference) (d : Z)
  : stateful (gmap positive S) reference :=
  (x <- read_value this;;
   v <- st_lift (it_plus_assign x d);;
   write_value this v;;
   st_ret this)%stateful.

Definition operator_minus_assign (this : reference) (d : Z)
  : stateful (gmap positive S) reference :=
  (x <- read_value this;;
   v <- st_lift (it_minus_assign x d);;
   write_value this v;;
   st_ret this)%stateful.

(** [friend StrongTypedef operator+(const StrongTypedef& iter, const Distance& n)]:
    [StrongTypedef(static_cast<const type&>(iter) + n)]. *)
Definition iterator_plus (iter : S) (n : Z) : option S :=
  Result_StrongTypedef <$> it_plus (operator_const_T_ref iter) n.

(** [friend StrongTypedef operator+(const Distance& n, const StrongTypedef& iter)]:
    [return iter + n]. *)
Definition distance_plus_iterator (n : Z) (iter : S) : option S := iterator_plus iter n.

(** [friend StrongTypedef operator-(const StrongTypedef& iter, const Distance& n)]. *)
Definition iterator_minus (iter : S) (n : Z) : option S :=
  Result_StrongTypedef <$> it_minus (operator_const_T_ref iter) n.

(** [friend Distance operator-(const StrongTypedef& lhs, const StrongTypedef& rhs)]. *)
Definition iterator_difference (lhs rhs : S) : option Z :=
  it_difference (operator_const_T_ref lhs) (operator_const_T_ref rhs).

(** [k] times [++], [k] times [--] on the object behind [this]. *)
Fixpoint increment_times (k : nat) (this : reference)
  : stateful (gmap positive S) reference :=
  match k with
  | O => st_ret this
  | Datatypes.S k' => (pre_increment this;; increment_times k' this)%stateful
  end.

Fixpoint decrement_times (k : nat) (this : reference)
  : stateful (gmap positive S) reference :=
  match k with
  | O => st_ret this
  | Datatypes.S k' => (pre_decrement this;; decrement_times k' this)%stateful
  end.

(** The iterator reached from [a] by [k] increments: a copy of [a] is put
    in a variable, incremented [k] times and read back.  The same with
    decrements. *)
Definition successor (k : nat) (a : S) : option S :=
  match increment_times k 1%positive {[ 1%positive := a ]} with
  | Some (r, h) => h !! r
  | None => None
  end.

Definition predecessor (k : nat) (a : S) : option S :=
  match decrement_times k 1%positive {[ 1%positive := a ]} with
  | Some (r, h) => h !! r
  | None => None
  end.

(** The [n]-th successor of [a] for a signed distance [n]: [n] increments
    lead to it, and for a negative [n] that many decrements. *)
Definition nth_successor (n : Z) (a : S) : option S :=
  if 0 <=? n then successor (Z.to_nat n) a else predecessor (Z.to_nat (- n)) a.

(** [k] times [++], [k] times [--] on a representation value. *)
Fixpoint rep_successor (k : nat) (x : I) : option I :=
  match k with
  | O => Some x
  | Datatypes.S k' => y ← rep_increment x; rep_successor k' y
  end.

Fixpoint rep_predecessor (k : nat) (x : I) : option I :=
  match k with
  | O => Some x
  | Datatypes.S k' => y ← rep_decrement x; rep_predecessor k' y
  end.

Definition rep_nth_successor (n : Z) (x : I) : option I :=
  if 0 <=? n then rep_successor (Z.to_nat n) x else rep_predecessor (Z.to_nat (- n)) x.

End iterators.

(** *** The representation [Elem*]

    A pointer into an array: the array object, known by its name and holding
    its elements, and the index of the element pointed to, which may be one
    past the last.  As the language has it, arithmetic whose result would
    leave that range is undefined; so are a dereference one past the last
    element, the difference of pointers into different arrays and an
    ordering of them.  Pointers into different arrays are unequal; where one
    of them is one past the end of its array the language leaves the result
    open, and it is given none here. *)
Record array_object (Elem : Type) := Array { array_name : positive; elements : list Elem }.
Arguments Array {Elem} _ _.
Arguments array_name {Elem} _.
Arguments elements {Elem} _.

Record pointer (Elem : Type) := Pointer { array : array_object Elem; index : Z }.
Arguments Pointer {Elem} _ _.
Arguments array {Elem} _.
Arguments index {Elem} _.

#[global] Instance array_object_eq_dec {Elem} `{EqDecision Elem}
  : EqDecision (array_object Elem).
Proof. solve_decision. Defined.

(** [p] points at an element of its array. *)
Definition at_element {Elem} (p : pointer Elem) : bool :=
  (0 <=? index p) && (index p <? Z.of_nat (length (elements (array p)))).

(** [p] points at an element of its array or one past the last: the values
    a pointer into an array can have. *)
Definition in_array {Elem} (p : pointer Elem) : bool :=
  (0 <=? index p) && (index p <=? Z.of_nat (length (elements (array p)))).

Definition pointer_at {Elem} (p : pointer Elem) : option Elem :=
  if at_element p then elements (array p) !! Z.to_nat (index p) else None.

Definition pointer_move {Elem} (p : pointer Elem) (n : Z) : option (pointer Elem) :=
  let q := Pointer (array p) (index p + n) in
  if in_array q then Some q else None.

Definition same_array {Elem} `{EqDecision Elem} (x y : pointer Elem) : bool :=
  bool_decide (array x = array y).

Definition pointer_compare {Elem} `{EqDecision Elem}
    (op : comparison_operator) (x y : pointer Elem) : option bool :=
  if same_array x y then Int.compare op (index x) (index y)
  else match op with
       | EqEq => if at_element x && at_element y then Some false else None
       | NotEq => if at_element x && at_element y then Some true else None
       | _ => None
       end.

Definition pointer_difference {Elem} `{EqDecision Elem} (x y : pointer Elem) : option Z :=
  if same_array x y then Some (index x - index y) else None.

#[global] Instance pointer_representation {Elem} `{EqDecision Elem}
  : Representation (pointer Elem) := {
  rep_binary := fun _ _ _ => None;
  rep_compare := pointer_compare;
  rep_compound := fun _ _ _ => None;
  rep_compound_rvalue := fun _ _ _ => None;
  rep_increment := fun x => pointer_move x 1;
  rep_decrement := fun x => pointer_move x (-1);
  rep_unary := fun op x => match op with UnaryPlus => Some x | _ => None end
}.

#[global] Instance pointer_iterator {Elem} `{EqDecision Elem}
  : IteratorRepresentation (pointer Elem) Elem := {
  it_dereference := pointer_at;
  it_subscript := fun x i => pointer_move x i ≫= pointer_at;
  it_plus := fun x n => pointer_move x n;
  it_minus := fun x n => pointer_move x (- n);
  it_plus_assign := fun x n => pointer_move x n;
  it_minus_assign := fun x n => pointer_move x (- n);
  it_difference := pointer_difference
}.

(** ** The objects of the examples *)

(** The operators [integer_arithmetic] is declared to provide: the
    capability each operator token is generated under is among its bases. *)
Definition integer_arithmetic_operators : list binary_operator :=
  [Plus; Minus; Star; Slash; Percent].

(** Two [int] wrappers in a store. *)
Definition two_wrappers : gmap positive (strong_typedef unit Z) :=
  <[1%positive := Build 3]> (<[2%positive := Build 4]> ∅).

(** An array of three elements and wrapped pointers into it. *)
Definition three_elements : list Z := [10; 20; 30].
Definition at_index (i : Z) : strong_typedef unit (pointer Z) :=
  Build (Pointer (Array 1%positive three_elements) i).

(** ** What the further properties are stated with *)

#[global] Instance binary_operator_eq_dec : EqDecision binary_operator.
Proof. solve_decision. Defined.
#[global] Instance comparison_operator_eq_dec : EqDecision comparison_operator.
Proof. solve_decision. Defined.
#[global] Instance operator_eq_dec : EqDecision Overloads.operator.
Proof. solve_decision. Defined.

Section stating.
Import Overloads.

(** All capability bases a class gets from the capabilities it lists. *)
Definition bases_of (caps : list capability) : list capability :=
  flat_map capability_with_bases caps.

(** [Name] is a base exactly once. *)
Definition occurs_once (Name : capability) (l : list capability) : bool :=
  match List.filter (fun k => bool_decide (k = Name)) l with
  | [_] => true
  | _ => false
  end.

(** The capability [TYPE_SAFE_DETAIL_MAKE_OP] generates [op] under is a
    base exactly once. *)
Definition provides (caps : list capability) (op : operator) : bool :=
  match MAKE_OP_Name op with
  | Some Name => occurs_once Name (bases_of caps)
  | None => false
  end.

(** [k] is the capability [TYPE_SAFE_DETAIL_MAKE_OP_MIXED] generates [op]
    under: its second template argument. *)
Definition mixed_argument (op : operator) (k : capability) : option type :=
  A ← second_argument k;
  if bool_decide (k = MAKE_OP_MIXED_Name op A) then Some A else None.

Definition mixed_arguments (op : operator) (l : list capability) : list type :=
  omap (mixed_argument op) l.

(** The [Distance] of every [random_access_iterator] among the bases. *)
Definition distances (l : list capability) : list type :=
  omap (fun k => match k with random_access_iterator D => Some D | _ => None end) l.

(** No capability names a class as its second template argument. *)
Definition fundamental_arguments (l : list capability) : bool :=
  forallb (fun k => match second_argument k with
                    | Some (Class _) => false
                    | _ => true
                    end) l.

Definition is_minus (op : operator) : bool :=
  match op with Arithmetic Minus => true | _ => false end.

Definition is_plus (op : operator) : bool :=
  match op with Arithmetic Plus => true | _ => false end.

Definition is_plus_or_minus (op : operator) : bool :=
  match op with Arithmetic (Plus | Minus) => true | _ => false end.

(** What [resolve] makes of the viable functions. *)
Definition choose (cs : list candidate) : resolution :=
  match cs with
  | [] => no_viable_function
  | [c] => selected c
  | c :: c' :: more => several_viable (c :: c' :: more)
  end.

(** The friends a strong typedef has from its [random_access_iterator]
    bases: one of each kind for every [Distance] it lists. *)
Definition iterator_friends (friend : candidate) (caps : list capability) : list candidate :=
  map (fun _ : type => friend) (remove_dups (distances (bases_of caps))).

(** The operator functions for two operands of the strong typedef [a]: the
    one over two strong typedefs, where the capability that generates it is
    a base, and for [-] the difference of two iterators. *)
Definition same_class_candidates (a : string) (caps : list capability) (op : operator)
  : list candidate :=
  (if provides caps op then [same_type a] else [])
  ++ (if is_minus op then iterator_friends (iterator_and_iterator a) caps else []).

(** The operator functions for the strong typedef [a] on the left of an
    operand of arithmetic type, deduced as [Other], and on its right: the
    mixed operator, where its capability is a base, and for [+] and [-] the
    friends that take an iterator and a distance. *)
Definition arithmetic_rhs_candidates (a : string) (caps : list capability) (op : operator)
    (Other : qualified_type) : list candidate :=
  match mixed_arguments op (bases_of caps) with
  | [OtherArg] => [mixed_rhs a OtherArg Other]
  | _ => []
  end
  ++ (if is_plus_or_minus op then iterator_friends (iterator_and_distance a) caps else []).

Definition arithmetic_lhs_candidates (a : string) (caps : list capability) (op : operator)
    (Other : qualified_type) : list candidate :=
  match mixed_arguments op (bases_of caps) with
  | [OtherArg] => [mixed_lhs a OtherArg Other]
  | _ => []
  end
  ++ (if is_plus op then iterator_friends (distance_and_iterator a) caps else []).

(** What [x Op y] on [int] gives once wrapped as the generated operators
    wrap it: in the strong typedef for an arithmetic operator, as a plain
    [bool] for a comparison. *)
Definition result_on_int (class : string) (op : operator) (x y : Z) : outcome :=
  match op with
  | Arithmetic o => outcome_of (strong_value class) (Build <$> Int.binary o x y)
  | Comparison o => outcome_of bool_value (Int.compare o x y)
  end.

Definition equality_operators : list operator := [Comparison EqEq; Comparison NotEq].
Definition relational_operators : list operator :=
  [Comparison Less; Comparison LessEq; Comparison Greater; Comparison GreaterEq].

(** The binary operators over two values of the strong typedef that each
    capability is declared to bring, itself or through its bases. *)
Definition same_type_operators (c : capability) : list operator :=
  match c with
  | equality_comparison => equality_operators
  | relational_comparison => relational_operators
  | addition => [Arithmetic Plus]
  | subtraction => [Arithmetic Minus]
  | multiplication => [Arithmetic Star]
  | division => [Arithmetic Slash]
  | modulo => [Arithmetic Percent]
  | bitwise_or => [Arithmetic Pipe]
  | bitwise_xor => [Arithmetic Caret]
  | bitwise_and => [Arithmetic Amp]
  | integer_arithmetic =>
      [Arithmetic Plus; Arithmetic Minus; Arithmetic Star; Arithmetic Slash;
       Arithmetic Percent]
  | floating_point_arithmetic =>
      [Arithmetic Plus; Arithmetic Minus; Arithmetic Star; Arithmetic Slash]
  | bitmask => [Arithmetic Pipe; Arithmetic Caret; Arithmetic Amp]
  | input_iterator | forward_iterator | bidirectional_iterator => equality_operators
  | random_access_iterator _ => equality_operators ++ relational_operators
  | _ => []
  end.

(** The difference of two iterators, which [random_access_iterator] has as
    a friend of its own. *)
Definition has_iterator_difference (c : capability) (op : operator) : bool :=
  match c, op with
  | random_access_iterator _, Arithmetic Minus => true
  | _, _ => false
  end.

(** [struct D : B {};]: a class that only derives from [B]. *)
Definition derived_class (B : string) : class_declaration :=
  {| strong_typedef_base := None;
     capabilities := [];
     other_bases := [B];
     constructors := [];
     conversions := [] |}.

(** [std::is_lvalue_reference]. *)
Definition is_lvalue_reference (q : qualified_type) : bool :=
  match reference_of q with lvalue_reference => true | _ => false end.

(** The value category of an expression of reference type. *)
Definition category_of_reference (r : reference_kind) : value_category :=
  match r with lvalue_reference => lvalue | _ => rvalue end.

(** What overload resolution looks at in an operand type [t] that is the
    strong typedef [a] or a class that gets everything from it: the
    capability bases are those of [a], there is no conversion of its own to
    an arithmetic type, and [a] is a base, so that [t] converts to it. *)
Definition operand_of_strong_typedef (classes : translation_unit)
    (a : string) (l : list capability) (t : type) : Prop :=
  capability_bases classes t = map (pair a) l
  /\ arithmetic_operand classes t = false
  /\ is_base_of classes (Class a) t = true
  /\ is_convertible classes t (Class a) = true
  /\ forall f, is_convertible classes t (Fundamental f) = false.

(** [detail::forward<T>(t)]: the overload taking
    [typename std::remove_reference<T>::type&] accepts an lvalue, the one
    taking [typename std::remove_reference<T>::type&&] a temporary and
    asserts [!std::is_lvalue_reference<T>::value]; both return
    [static_cast<T&&>(t)].  [None]: the static assertion fails. *)
Definition forward (T : qualified_type) (t : value_category) : option value_category :=
  match t with
  | lvalue => Some (category_of_reference (reference_of (add_rvalue_reference T)))
  | rvalue =>
      if is_lvalue_reference T then None
      else Some (category_of_reference (reference_of (add_rvalue_reference T)))
  end.

(** Further classes: [E] with [equality_comparison] only; [N] with
    [mixed_subtraction<N, int>] and [bitshift<N, int>]; [It], an iterator
    over a pointer with [random_access_iterator] and [Distance = long];
    [D], derived from [W]. *)
Definition more_classes : translation_unit :=
  <["E" := strong_typedef_class (Fundamental Int) [equality_comparison]]>
  (<["N" := strong_typedef_class (Fundamental Int)
              [mixed_subtraction (Fundamental Int); bitshift (Fundamental Int)]]>
  (<["It" := strong_typedef_class (Class "pointer")
               [random_access_iterator (Fundamental Long)]]>
  (<["D" := derived_class "W"]> example_classes))).

(** And with them [DIt], derived from [It], and [Sub], an iterator that
    lists [subtraction] as well. *)
Definition iterator_classes : translation_unit :=
  <["DIt" := derived_class "It"]>
  (<["Sub" := strong_typedef_class (Class "pointer")
                [random_access_iterator (Fundamental Long); subtraction]]>
   more_classes).

End stating.


(** * Properties *)

(** ** The assertion primitive *)

Section assert_facts.
Import Assert.

Example constexpr_assert_enabled_false :
  constexpr_assert 1 (Return := Z) false {| file_name := "a.cpp"; line_number := 7 |} "boom"
  = Run [handle {| file_name := "a.cpp"; line_number := 7 |} EmptyString "boom"; abort] None.
Proof. reflexivity. Qed.

Example constexpr_assert_disabled_false :
  constexpr_assert 0 (Return := Z) false {| file_name := "a.cpp"; line_number := 7 |} "boom"
  = Run [] (Some 0).
Proof. reflexivity. Qed.

Lemma assertions_enabled_default :
  assertions_enabled TYPE_SAFE_ENABLE_ASSERTIONS_default = true.
Proof. reflexivity. Qed.

(** C6. With assertions enabled, a false condition makes the primitive report
    the location and the message and then terminate the process; with
    assertions disabled the same call has no effect, does not terminate and
    returns the value-initialised [Return()]. *)
Theorem constexpr_assert_false_condition :
  forall (level : Z) (Return : Type) (V : ValueInitializable Return)
         (loc : source_location) (message : string),
    constexpr_assert level (Return := Return) false loc message
    = (if assertions_enabled level
       then Run [handle loc EmptyString message; abort] None
       else Run [] (Some value_initialized))
    /\ terminated (constexpr_assert level (Return := Return) false loc message)
       = assertions_enabled level.
Proof.
  intros level Return V loc message. unfold constexpr_assert.
  destruct (assertions_enabled level); split; reflexivity.
Qed.

(** C10. The primitive returns exactly when the condition is true or
    assertions are disabled, and the value it then returns is [Return()],
    whatever the condition, the location and the message are. *)
Theorem constexpr_assert_returns_default :
  forall (level : Z) (Return : Type) (V : ValueInitializable Return)
         (condition : bool) (loc : source_location) (message : string),
    result (constexpr_assert level (Return := Return) condition loc message)
    = if condition || negb (assertions_enabled level)
      then Some value_initialized
      else None.
Proof.
  intros level Return V condition loc message. unfold constexpr_assert.
  destruct (assertions_enabled level), condition; reflexivity.
Qed.

End assert_facts.

(** ** The wrapper *)

Section wrapper_facts.
Context {Tag T : Type}.
Context `{ValueInitializable T} `{Movable T}.

Abbreviation S := (strong_typedef Tag T).

Lemma read_value_lookup (h : gmap positive S) a v :
  h !! a = Some (Build v) -> read_value a h = Some (v, h).
Proof. intros E. unfold read_value. rewrite E. reflexivity. Qed.

Lemma write_value_lookup (h : gmap positive S) a v w :
  h !! a = Some (Build v) -> write_value a w h = Some (tt, <[a := Build w]> h).
Proof. intros E. unfold write_value. rewrite E. reflexivity. Qed.

Lemma std_swap_distinct (h : gmap positive S) a b va vb :
  a <> b -> h !! a = Some (Build va) -> h !! b = Some (Build vb) ->
  std_swap a b h = Some (tt, <[b := Build va]> (<[a := Build vb]> h)).
Proof.
  intros Hne Ha Hb. unfold std_swap, st_bind.
  rewrite (read_value_lookup h a va Ha).
  rewrite (write_value_lookup h a va _ Ha).
  rewrite (read_value_lookup _ b vb) by (rewrite lookup_insert_ne; assumption).
  rewrite (write_value_lookup _ b vb) by (rewrite lookup_insert_ne; assumption).
  rewrite (write_value_lookup _ a (moved_from va))
    by (rewrite lookup_insert_ne by congruence; apply lookup_insert_eq).
  rewrite (write_value_lookup _ b (moved_from vb))
    by (rewrite lookup_insert_ne by congruence; apply lookup_insert_eq).
  f_equal. f_equal. apply map_eq. intros i.
  destruct (decide (i = b)) as [->|Hib].
  - rewrite !lookup_insert_eq. reflexivity.
  - rewrite (lookup_insert_ne _ b i) by congruence.
    rewrite (lookup_insert_ne _ b i) by congruence.
    destruct (decide (i = a)) as [->|Hia].
    + rewrite !lookup_insert_eq. reflexivity.
    + rewrite !(lookup_insert_ne _ a i) by congruence.
      rewrite (lookup_insert_ne _ b i) by congruence.
      rewrite (lookup_insert_ne _ a i) by congruence. reflexivity.
Qed.

Lemma std_swap_same (h : gmap positive S) a va :
  h !! a = Some (Build va) ->
  std_swap a a h = Some (tt, <[a := Build va]> h).
Proof.
  intros Ha. unfold std_swap, st_bind.
  rewrite (read_value_lookup h a va Ha).
  rewrite (write_value_lookup h a va _ Ha).
  rewrite (read_value_lookup _ a (moved_from va)) by apply lookup_insert_eq.
  rewrite (write_value_lookup _ a (moved_from va)) by apply lookup_insert_eq.
  rewrite (write_value_lookup _ a (moved_from (moved_from va))) by apply lookup_insert_eq.
  rewrite (write_value_lookup _ a (moved_from va)) by apply lookup_insert_eq.
  rewrite !insert_insert_eq. reflexivity.
Qed.

(** C4. A wrapper constructed from a representation value [v], by copy or by
    move, gives [v] back through every explicit accessor: the four
    conversion operators, the four [get] overloads, and extraction by move. *)
Theorem construct_then_extract :
  forall v : T,
    operator_T_ref (copy_constructor v : S) = v
    /\ operator_const_T_ref (copy_constructor v : S) = v
    /\ operator_T_rvalue_ref (copy_constructor v : S) = v
    /\ operator_const_T_rvalue_ref (copy_constructor v : S) = v
    /\ get (copy_constructor v : S) = v
    /\ get_const (copy_constructor v : S) = v
    /\ get_rvalue (copy_constructor v : S) = v
    /\ get_const_rvalue (copy_constructor v : S) = v
    /\ fst (extract_by_move (copy_constructor v : S)) = v
    /\ get (fst (move_constructor v : S * T)) = v
    /\ get_const (fst (move_constructor v : S * T)) = v
    /\ get_rvalue (fst (move_constructor v : S * T)) = v
    /\ get_const_rvalue (fst (move_constructor v : S * T)) = v
    /\ fst (extract_by_move (fst (move_constructor v : S * T))) = v.
Proof. intros v. repeat split. Qed.

Example default_constructor_of_int :
  get (default_constructor : strong_typedef unit Z) = 0.
Proof. reflexivity. Qed.

(** C8. The default constructor value-initialises the representation: the
    extracted value is [T()]. *)
Theorem default_constructor_value_initializes :
  get (default_constructor : S) = value_initialized
  /\ get_const (default_constructor : S) = value_initialized.
Proof. split; reflexivity. Qed.

(** C7. [swap(a, b)] on two live wrappers of the same type always completes;
    afterwards [a] holds what [b] held and [b] holds what [a] held, no other
    object has changed and no object has appeared or gone; and the two stay
    separate objects: a later write through [a] leaves [b] as it is. *)
Theorem swap_exchanges_values :
  forall (h : gmap positive S) (a b : reference) (va vb : T),
    h !! a = Some (Build va) ->
    h !! b = Some (Build vb) ->
    exists h' : gmap positive S,
      swap a b h = Some (tt, h')
      /\ read_value a h' = Some (vb, h')
      /\ read_value b h' = Some (va, h')
      /\ (forall c, c <> a -> c <> b -> h' !! c = h !! c)
      /\ dom h' = dom h
      /\ (a <> b -> forall v : T,
            (write_value a v;; read_value b)%stateful h'
            = Some (va, <[a := Build v]> h')).
Proof.
  intros h a b va vb Ha Hb. unfold swap.
  destruct (decide (a = b)) as [->|Hne].
  - assert (va = vb) as -> by congruence.
    exists (<[b := Build vb]> h). split; [apply std_swap_same; assumption|].
    assert (E : <[b := Build vb]> h = h) by (apply insert_id; assumption).
    rewrite E. repeat split.
    + apply read_value_lookup; assumption.
    + apply read_value_lookup; assumption.
    + intros Hbb. congruence.
  - exists (<[b := Build va]> (<[a := Build vb]> h)).
    split; [apply std_swap_distinct; assumption|].
    split; [apply read_value_lookup; rewrite lookup_insert_ne by congruence;
            apply lookup_insert_eq|].
    split; [apply read_value_lookup; apply lookup_insert_eq|].
    split; [intros c Hca Hcb; rewrite !lookup_insert_ne by congruence; reflexivity|].
    split.
    + rewrite !dom_insert_L.
      assert (Da : a ∈ dom h) by (apply elem_of_dom; eauto).
      assert (Db : b ∈ dom h) by (apply elem_of_dom; eauto).
      apply set_eq. intros i. rewrite !elem_of_union, !elem_of_singleton.
      split; [intros [->|[->|Hi]]; assumption|auto].
    + intros _ v. unfold st_bind.
      rewrite (write_value_lookup _ a vb)
        by (rewrite lookup_insert_ne by congruence; apply lookup_insert_eq).
      apply read_value_lookup.
      rewrite lookup_insert_ne by congruence. apply lookup_insert_eq.
Qed.

End wrapper_facts.

(** ** The generated operators forward to the representation *)

Section forwarding.
Context {Tag T : Type} `{Representation T}.

Abbreviation S := (strong_typedef Tag T).

Lemma pre_increment_run (h : gmap positive S) (this : reference) (x : T) :
  h !! this = Some (Build x) ->
  pre_increment this h = v ← rep_increment x; Some (this, <[this := Build v]> h).
Proof.
  intros E. unfold pre_increment, st_bind, st_lift, st_ret.
  rewrite (read_value_lookup h this x E).
  destruct (rep_increment x) as [v|]; simpl; [|reflexivity].
  rewrite (write_value_lookup h this x v E). reflexivity.
Qed.

Lemma pre_decrement_run (h : gmap positive S) (this : reference) (x : T) :
  h !! this = Some (Build x) ->
  pre_decrement this h = v ← rep_decrement x; Some (this, <[this := Build v]> h).
Proof.
  intros E. unfold pre_decrement, st_bind, st_lift, st_ret.
  rewrite (read_value_lookup h this x E).
  destruct (rep_decrement x) as [v|]; simpl; [|reflexivity].
  rewrite (write_value_lookup h this x v E). reflexivity.
Qed.

Lemma post_increment_run (h : gmap positive S) (this : reference) (x : T) :
  h !! this = Some (Build x) ->
  post_increment this h = v ← rep_increment x; Some (Build x, <[this := Build v]> h).
Proof.
  intros E. unfold post_increment, copy_object, st_bind, st_ret.
  rewrite (read_value_lookup h this x E).
  rewrite (pre_increment_run h this x E).
  destruct (rep_increment x); reflexivity.
Qed.

Lemma post_decrement_run (h : gmap positive S) (this : reference) (x : T) :
  h !! this = Some (Build x) ->
  post_decrement this h = v ← rep_decrement x; Some (Build x, <[this := Build v]> h).
Proof.
  intros E. unfold post_decrement, copy_object, st_bind, st_ret.
  rewrite (read_value_lookup h this x E).
  rewrite (pre_decrement_run h this x E).
  destruct (rep_decrement x); reflexivity.
Qed.

Lemma compound_run (Op : binary_operator) (c : value_category)
    (h : gmap positive S) (lhs : reference) (x y : T)
    (rhs : stateful (gmap positive S) T) :
  h !! lhs = Some (Build x) ->
  rhs h = Some (y, h) ->
  TYPE_SAFE_DETAIL_MAKE_OP_COMPOUND Op c lhs rhs h
  = v ← match c with
        | lvalue => rep_compound Op x y
        | rvalue => rep_compound_rvalue Op x y
        end;
    Some (lhs, <[lhs := Build v]> h).
Proof.
  intros E R. unfold TYPE_SAFE_DETAIL_MAKE_OP_COMPOUND, st_bind, st_lift, st_ret.
  rewrite (read_value_lookup h lhs x E), R.
  destruct c.
  - destruct (rep_compound Op x y) as [v|]; simpl; [|reflexivity].
    rewrite (write_value_lookup h lhs x v E). reflexivity.
  - destruct (rep_compound_rvalue Op x y) as [v|]; simpl; [|reflexivity].
    rewrite (write_value_lookup h lhs x v E). reflexivity.
Qed.

Lemma binary_operation_get (Op : binary_operator) (lc rc : value_category) (a b : S) :
  get <$> binary_operation Op lc rc a b = rep_binary Op (get a) (get b).
Proof.
  unfold binary_operation, TYPE_SAFE_DETAIL_MAKE_OP.
  destruct a as [x], b as [y]. destruct rc; simpl;
    unfold get_underlying_const, get_underlying_rvalue, get_const, get_rvalue,
      operator_const_T_ref, operator_T_ref; simpl;
    destruct (rep_binary Op x y); reflexivity.
Qed.

Lemma integer_arithmetic_bases :
  Forall (fun op => exists Name,
              Overloads.MAKE_OP_Name (Overloads.Arithmetic op) = Some Name
              /\ Name ∈ Overloads.capability_with_bases Overloads.integer_arithmetic)
         integer_arithmetic_operators
  /\ Overloads.increment ∈ Overloads.capability_with_bases Overloads.integer_arithmetic
  /\ Overloads.decrement ∈ Overloads.capability_with_bases Overloads.integer_arithmetic.
Proof.
  split; [|split].
  - repeat constructor; eexists; (split; [reflexivity|]);
      apply list_elem_of_In; vm_compute; tauto.
  - apply list_elem_of_In; vm_compute; tauto.
  - apply list_elem_of_In; vm_compute; tauto.
Qed.


(** C9. With a wrapper holding [x]: postfix [++] returns a wrapper holding
    [x] and leaves the operand holding [++x]; prefix [++] modifies the
    operand in the same way and returns the operand itself.  Likewise for
    [--]. *)
Theorem increment_decrement_results :
  forall (h : gmap positive S) (this : reference) (x : T),
    h !! this = Some (Build x) ->
    post_increment this h = (v ← rep_increment x; Some (Build x, <[this := Build v]> h))
    /\ pre_increment this h = (v ← rep_increment x; Some (this, <[this := Build v]> h))
    /\ post_decrement this h = (v ← rep_decrement x; Some (Build x, <[this := Build v]> h))
    /\ pre_decrement this h = (v ← rep_decrement x; Some (this, <[this := Build v]> h)).
Proof.
  intros h this x E.
  split; [apply post_increment_run; assumption|].
  split; [apply pre_increment_run; assumption|].
  split; [apply post_decrement_run; assumption|].
  apply pre_decrement_run; assumption.
Qed.

End forwarding.

(** On [int], for the strong typedef [W] with [integer_arithmetic]: each of
    [+ - * / %] on two [W] selects the same-type overload and yields the
    wrapper of the [int] result. *)
Lemma integer_arithmetic_on_int (op : binary_operator) (x y : Z) (cl cr : value_category) :
  op ∈ integer_arithmetic_operators ->
  Overloads.evaluate Overloads.example_classes (Overloads.Arithmetic op)
    (Overloads.Argument (Overloads.W x) cl) (Overloads.Argument (Overloads.W y) cr)
  = Overloads.outcome_of Overloads.W (Int.binary op x y).
Proof.
  intros I. unfold Overloads.evaluate, Overloads.operand_of.
  cbn [Overloads.value_of Overloads.passed_as Overloads.type_of_value Overloads.W].
  assert (R : Overloads.resolve Overloads.example_classes (Overloads.Arithmetic op)
                (Overloads.Operand (Overloads.Class "W") cl)
                (Overloads.Operand (Overloads.Class "W") cr)
              = Overloads.selected (Overloads.same_type "W")).
  { unfold integer_arithmetic_operators in I.
    repeat (apply elem_of_cons in I; destruct I as [->|I]);
      [destruct cl, cr; vm_compute; reflexivity ..|].
    apply elem_of_nil in I. destruct I. }
  rewrite R. unfold Overloads.call.
  cbn [Overloads.value_of Overloads.passed_as]. unfold Overloads.W at 1 2. cbv iota.
  replace (bool_decide ("W" = "W") && bool_decide ("W" = "W")
           && Overloads.wraps_int Overloads.example_classes "W") with true
    by (vm_compute; reflexivity).
  unfold binary_operation, TYPE_SAFE_DETAIL_MAKE_OP.
  destruct cr; cbn; destruct (Int.binary op x y); reflexivity.
Qed.

Lemma swap_exchanges_values_witness :
  two_wrappers !! 1%positive = Some (Build 3)
  /\ two_wrappers !! 2%positive = Some (Build 4)
  /\ exists h' : gmap positive (strong_typedef unit Z),
       swap 1%positive 2%positive two_wrappers = Some (tt, h')
       /\ read_value 1%positive h' = Some (4, h')
       /\ read_value 2%positive h' = Some (3, h')
       /\ (forall c, c <> 1%positive -> c <> 2%positive -> h' !! c = two_wrappers !! c)
       /\ dom h' = dom two_wrappers
       /\ (1%positive <> 2%positive -> forall v : Z,
             (write_value 1%positive v;; read_value 2%positive)%stateful h'
             = Some (3, <[1%positive := Build v]> h')).
Proof.
  split; [reflexivity|]. split; [reflexivity|].
  exact (swap_exchanges_values two_wrappers 1%positive 2%positive 3 4 eq_refl eq_refl).
Defined.


Lemma increment_decrement_results_witness :
  two_wrappers !! 1%positive = Some (Build 3)
  /\ post_increment 1%positive two_wrappers
     = Some (Build 3, <[1%positive := Build 4]> two_wrappers)
  /\ pre_increment 1%positive two_wrappers
     = Some (1%positive, <[1%positive := Build 4]> two_wrappers)
  /\ post_decrement 1%positive two_wrappers
     = Some (Build 3, <[1%positive := Build 2]> two_wrappers)
  /\ pre_decrement 1%positive two_wrappers
     = Some (1%positive, <[1%positive := Build 2]> two_wrappers).
Proof.
  split; [reflexivity|].
  exact (increment_decrement_results two_wrappers 1%positive 3 eq_refl).
Defined.

(** ** The iterator contract *)

Section iterator_contract.
Context {Tag I Elem : Type} `{Representation I} `{IteratorRepresentation I Elem}.

Abbreviation S := (strong_typedef Tag I).

Lemma increment_times_run (k : nat) :
  forall (h : gmap positive S) (this : reference) (x : I),
    h !! this = Some (Build x) ->
    increment_times k this h
    = v ← rep_successor k x; Some (this, <[this := Build v]> h).
Proof.
  induction k as [|k IH]; intros h this x E; simpl.
  - unfold st_ret. rewrite insert_id by assumption. reflexivity.
  - unfold st_bind. rewrite (pre_increment_run h this x E).
    destruct (rep_increment x) as [y|]; simpl; [|reflexivity].
    rewrite (IH _ this y) by apply lookup_insert_eq.
    destruct (rep_successor k y) as [v|]; simpl; [|reflexivity].
    rewrite insert_insert_eq. reflexivity.
Qed.

Lemma decrement_times_run (k : nat) :
  forall (h : gmap positive S) (this : reference) (x : I),
    h !! this = Some (Build x) ->
    decrement_times k this h
    = v ← rep_predecessor k x; Some (this, <[this := Build v]> h).
Proof.
  induction k as [|k IH]; intros h this x E; simpl.
  - unfold st_ret. rewrite insert_id by assumption. reflexivity.
  - unfold st_bind. rewrite (pre_decrement_run h this x E).
    destruct (rep_decrement x) as [y|]; simpl; [|reflexivity].
    rewrite (IH _ this y) by apply lookup_insert_eq.
    destruct (rep_predecessor k y) as [v|]; simpl; [|reflexivity].
    rewrite insert_insert_eq. reflexivity.
Qed.

Lemma successor_run (k : nat) (a : S) :
  successor k a = Build <$> rep_successor k (value_ a).
Proof.
  unfold successor. destruct a as [x]. simpl.
  rewrite (increment_times_run k _ 1%positive x) by apply lookup_singleton_eq.
  destruct (rep_successor k x) as [v|]; simpl; [|reflexivity].
  apply lookup_insert_eq.
Qed.

Lemma predecessor_run (k : nat) (a : S) :
  predecessor k a = Build <$> rep_predecessor k (value_ a).
Proof.
  unfold predecessor. destruct a as [x]. simpl.
  rewrite (decrement_times_run k _ 1%positive x) by apply lookup_singleton_eq.
  destruct (rep_predecessor k x) as [v|]; simpl; [|reflexivity].
  apply lookup_insert_eq.
Qed.

(** The increments and decrements of the strong typedef, run on an object in
    the store, are those of the representation. *)
Lemma nth_successor_run (n : Z) (a : S) :
  nth_successor n a = Build <$> rep_nth_successor n (value_ a).
Proof.
  unfold nth_successor, rep_nth_successor.
  destruct (0 <=? n); [apply successor_run|apply predecessor_run].
Qed.

(** Whatever the representation, the operators [random_access_iterator]
    gives a strong typedef are the representation's: the sum with a
    distance, the walk by increments or decrements, the difference and the
    order of two iterators. *)
Lemma random_access_iterator_forwards (a b : S) (n : Z) :
  iterator_plus a n = Build <$> it_plus (get a) n
  /\ nth_successor n a = Build <$> rep_nth_successor n (get a)
  /\ iterator_difference b a = it_difference (get b) (get a)
  /\ comparison Less lvalue lvalue a b = rep_compare Less (get a) (get b).
Proof.
  split; [reflexivity|]. split; [apply nth_successor_run|]. split; [reflexivity|].
  unfold comparison, TYPE_SAFE_DETAIL_MAKE_OP, Result_bool, get_underlying,
    get_underlying_const, get, get_const, operator_T_ref, operator_const_T_ref.
  destruct (rep_compare Less (value_ a) (value_ b)); reflexivity.
Qed.

End iterator_contract.

(** Increments and decrements of a pointer, and its sum with a distance. *)
Section pointer_facts.
Context {Elem : Type} `{EqDecision Elem}.

Lemma pointer_move_spec (x : pointer Elem) (n : Z) :
  pointer_move x n
  = if (0 <=? index x + n) && (index x + n <=? Z.of_nat (length (elements (array x))))
    then Some (Pointer (array x) (index x + n)) else None.
Proof. reflexivity. Qed.

Lemma in_array_spec (x : pointer Elem) :
  in_array x = true
  <-> (0 <= index x <= Z.of_nat (length (elements (array x))))%Z.
Proof.
  unfold in_array. rewrite andb_true_iff, Z.leb_le, Z.leb_le. reflexivity.
Qed.

Lemma pointer_move_Some (x : pointer Elem) (n : Z) :
  (0 <= index x + n <= Z.of_nat (length (elements (array x))))%Z ->
  pointer_move x n = Some (Pointer (array x) (index x + n)).
Proof.
  intros B. rewrite pointer_move_spec.
  rewrite (proj2 (Z.leb_le _ _)), (proj2 (Z.leb_le _ _)) by lia. reflexivity.
Qed.

Lemma pointer_move_None (x : pointer Elem) (n : Z) :
  ~ (0 <= index x + n <= Z.of_nat (length (elements (array x))))%Z ->
  pointer_move x n = None.
Proof.
  intros B. rewrite pointer_move_spec.
  destruct (Z.leb_spec 0 (index x + n)); [|reflexivity].
  destruct (Z.leb_spec (index x + n) (Z.of_nat (length (elements (array x)))));
    [|reflexivity].
  exfalso. apply B. lia.
Qed.

Lemma pointer_move_0 (x : pointer Elem) :
  in_array x = true -> pointer_move x 0 = Some x.
Proof.
  intros V. apply in_array_spec in V.
  rewrite pointer_move_Some by lia. destruct x as [arr i]. simpl.
  rewrite Z.add_0_r. reflexivity.
Qed.

Lemma pointer_successor (k : nat) :
  forall x : pointer Elem,
    in_array x = true -> rep_successor k x = pointer_move x (Z.of_nat k).
Proof.
  induction k as [|k IH]; intros x V.
  - simpl. symmetry. apply pointer_move_0, V.
  - cbn [rep_successor rep_increment pointer_representation].
    pose proof (proj1 (in_array_spec x) V) as B.
    destruct (Z_le_gt_dec (index x + 1) (Z.of_nat (length (elements (array x)))))
      as [L|G].
    + rewrite (pointer_move_Some x 1) by lia. simpl.
      rewrite IH by (apply in_array_spec; simpl; lia).
      rewrite !pointer_move_spec. simpl.
      replace (index x + 1 + Z.of_nat k) with (index x + Z.of_nat (Datatypes.S k)) by lia.
      reflexivity.
    + rewrite (pointer_move_None x 1) by lia. simpl.
      symmetry. apply pointer_move_None. lia.
Qed.

Lemma pointer_predecessor (k : nat) :
  forall x : pointer Elem,
    in_array x = true -> rep_predecessor k x = pointer_move x (- Z.of_nat k).
Proof.
  induction k as [|k IH]; intros x V.
  - simpl. symmetry. apply pointer_move_0, V.
  - cbn [rep_predecessor rep_decrement pointer_representation].
    pose proof (proj1 (in_array_spec x) V) as B.
    destruct (Z_le_gt_dec 0 (index x + -1)) as [L|G].
    + rewrite (pointer_move_Some x (-1)) by lia. simpl.
      rewrite IH by (apply in_array_spec; simpl; lia).
      rewrite !pointer_move_spec. simpl.
      replace (index x + -1 + - Z.of_nat k) with (index x + - Z.of_nat (Datatypes.S k))
        by lia.
      reflexivity.
    + rewrite (pointer_move_None x (-1)) by lia. simpl.
      symmetry. apply pointer_move_None. lia.
Qed.

(** [x + n] is what [n] increments of [x] lead to, or [-n] decrements; the
    sum is undefined exactly when one of those steps is. *)
Lemma pointer_nth_successor (n : Z) (x : pointer Elem) :
  in_array x = true -> rep_nth_successor n x = pointer_move x n.
Proof.
  intros V. unfold rep_nth_successor. destruct (Z.leb_spec 0 n).
  - rewrite (pointer_successor _ x V), Z2Nat.id by lia. reflexivity.
  - rewrite (pointer_predecessor _ x V), Z2Nat.id by lia.
    rewrite Z.opp_involutive. reflexivity.
Qed.

Lemma pointer_difference_Some (x y : pointer Elem) (d : Z) :
  pointer_difference y x = Some d <-> array y = array x /\ index y = index x + d.
Proof.
  unfold pointer_difference, same_array. destruct (bool_decide_reflect (array y = array x)).
  - split; [intros [= <-]; split; [assumption|lia]|intros [_ ->]; f_equal; lia].
  - split; [discriminate|intros [? _]; contradiction].
Qed.

End pointer_facts.

Section pointer_contract.
Context {Tag Elem : Type} `{EqDecision Elem}.

Abbreviation S := (strong_typedef Tag (pointer Elem)).


End pointer_contract.


(** ** Overload resolution *)

Section overload_facts.
Import Overloads.

Example W_plus_W :
  evaluate example_classes (Arithmetic Plus) (temporary (W 3)) (temporary (W 4))
  = yields (W 7).
Proof. vm_compute. reflexivity. Qed.

Example W_less_W :
  evaluate example_classes (Comparison Less) (variable (W 3)) (temporary (W 4))
  = rejected.
Proof. vm_compute. reflexivity. Qed.

Example M_plus_int :
  evaluate example_classes (Arithmetic Plus) (temporary (M 3)) (temporary (int_value 4))
  = yields (M 7).
Proof. vm_compute. reflexivity. Qed.

Example W_divided_by_zero :
  evaluate example_classes (Arithmetic Slash) (temporary (W 3)) (temporary (W 0))
  = undefined.
Proof. vm_compute. reflexivity. Qed.

(** *** The guards of the mixed overloads *)

Lemma decay_add_rvalue_reference (q : qualified_type) :
  decay (add_rvalue_reference q) = decay q.
Proof. destruct q as [t c []]; reflexivity. Qed.

(** A standard conversion to a class is a conversion from that class or
    from one derived from it. *)
Lemma standard_conversion_to_class (classes : translation_unit) (From : type) (S : string) :
  standard_conversion classes From (Class S) = is_base_of classes (Class S) From.
Proof. destruct From; reflexivity. Qed.

Lemma is_base_of_same (classes : translation_unit) (S : string) :
  is_base_of classes (Class S) (Class S) = true.
Proof.
  unfold is_base_of, derives_from.
  destruct (size classes); simpl; rewrite bool_decide_eq_true_2; reflexivity.
Qed.

(** Nothing of arithmetic type converts implicitly to a class whose only
    constructors are the explicit ones of [strong_typedef]. *)
Lemma strong_typedef_class_not_from_fundamental
    (classes : translation_unit) (S : string) (T : type) (caps : list capability)
    (f : fundamental) :
  classes !! S = Some (strong_typedef_class T caps) ->
  is_convertible classes (Fundamental f) (Class S) = false.
Proof.
  intros E. unfold is_convertible, converting_constructor, all_constructors.
  rewrite E. reflexivity.
Qed.

(** C1, as the code has it.  A mixed overload [(S, Other)] or [(Other, S)]
    of a primitive capability operator takes part in overload resolution
    exactly when [Other], decayed, is not [S], is not derived from [S], and
    is implicitly convertible to [S] itself (not to the representation of
    [S]); that is, exactly when it is not [S] or derived from it and either
    [S] has a constructor that is not explicit for it or it has a conversion
    function that is not explicit to [S].  In particular an operand of
    arithmetic type never passes the guard of a strong typedef that has only
    the explicit constructors it inherits from [strong_typedef]. *)
Theorem MAKE_OP_mixed_guard :
  forall (classes : translation_unit) (S : string) (Other : qualified_type),
    (MAKE_OP_mixed_enabled classes S Other = true
     <-> decay Other <> Class S
         /\ is_base_of classes (Class S) (decay Other) = false
         /\ is_convertible classes (decay Other) (Class S) = true)
    /\ (MAKE_OP_mixed_enabled classes S Other = true
        <-> is_base_of classes (Class S) (decay Other) = false
            /\ (converting_constructor classes (decay Other) (Class S) = true
                \/ conversion_function classes (decay Other) (Class S) = true))
    /\ (forall (T : type) (caps : list capability) (f : fundamental),
          classes !! S = Some (strong_typedef_class T caps) ->
          decay Other = Fundamental f ->
          MAKE_OP_mixed_enabled classes S Other = false).
Proof.
  intros classes S Other. unfold MAKE_OP_mixed_enabled, enable_if_convertible.
  rewrite decay_add_rvalue_reference. split; [|split].
  - unfold is_same. rewrite !andb_true_iff, !negb_true_iff, bool_decide_eq_false.
    tauto.
  - unfold is_same. rewrite !andb_true_iff, !negb_true_iff, bool_decide_eq_false.
    unfold is_convertible. rewrite !orb_true_iff.
    pose proof (standard_conversion_to_class classes (decay Other) S) as B.
    pose proof (is_base_of_same classes S) as R.
    split.
    + intros [[N D] [[C|C]|C]]; [rewrite B in C; congruence|tauto|tauto].
    + intros [D C]. split; [split; [|exact D]|tauto].
      intros E. rewrite E, R in D. discriminate.
  - intros T caps f E D. rewrite D.
    rewrite (strong_typedef_class_not_from_fundamental classes S T caps f E).
    apply andb_false_r.
Qed.

(** C1, as the specification states it, fails on a plain [int] operand of a
    strong typedef of [int]: the specified guard accepts it, the guard of
    the header does not. *)
Lemma MAKE_OP_mixed_guard_rejects_int :
  specified_mixed_enabled example_classes "W" (Qualified (Fundamental Int) false no_reference)
  = true
  /\ MAKE_OP_mixed_enabled example_classes "W" (Qualified (Fundamental Int) false no_reference)
     = false
  /\ MAKE_OP_mixed_enabled example_classes "W"
       (Qualified (Fundamental Int) false lvalue_reference)
     = false.
Proof. vm_compute. repeat split. Qed.

(** *** Mixed-type addition *)

Lemma resolve_M_plus_int (cl cr : value_category) :
  resolve example_classes (Arithmetic Plus)
    (Operand (Class "M") cl) (Operand (Fundamental Int) cr)
  = selected (mixed_rhs "M" (Fundamental Int)
                (deduce_Other (Operand (Fundamental Int) cr))).
Proof. destruct cl, cr; vm_compute; reflexivity. Qed.

Lemma resolve_int_plus_M (cl cr : value_category) :
  resolve example_classes (Arithmetic Plus)
    (Operand (Fundamental Int) cl) (Operand (Class "M") cr)
  = selected (mixed_lhs "M" (Fundamental Int)
                (deduce_Other (Operand (Fundamental Int) cl))).
Proof. destruct cl, cr; vm_compute; reflexivity. Qed.

Lemma resolve_plus_other_wrapper (c : string) (cl cr : value_category) :
  c = "W" \/ c = "M" ->
  resolve example_classes (Arithmetic Plus)
    (Operand (Class c) cl) (Operand (Class "W2") cr)
  = no_viable_function.
Proof. intros [-> | ->]; destruct cl, cr; vm_compute; reflexivity. Qed.

Lemma resolve_W_plus_int (cl cr : value_category) :
  resolve example_classes (Arithmetic Plus)
    (Operand (Class "W") cl) (Operand (Fundamental Int) cr)
  = no_viable_function
  /\ resolve example_classes (Arithmetic Plus)
       (Operand (Fundamental Int) cl) (Operand (Class "W") cr)
     = no_viable_function.
Proof. destruct cl, cr; vm_compute; split; reflexivity. Qed.

(** C5, as the code has it.  For the strong typedef [M] of [int] that has
    [mixed_addition<M, int>] besides [integer_arithmetic], [M(a) + b] and
    [b + M(a)] are [M(a + b)] wherever [a + b] is an [int] (so [M(3) + 4] and
    [4 + M(3)] are [M(7)]), while adding a value of another strong typedef
    of [int] is rejected at compile time.  For [W], which has
    [integer_arithmetic] only, adding a value of another strong typedef is
    rejected too, and so are [W(a) + b] and [b + W(a)]. *)
Theorem mixed_addition_with_int :
  forall (a b : Z) (cl cr : value_category),
    Int.representable (a + b) = true ->
    evaluate example_classes (Arithmetic Plus)
      (Argument (M a) cl) (Argument (int_value b) cr) = yields (M (a + b))
    /\ evaluate example_classes (Arithmetic Plus)
         (Argument (int_value b) cl) (Argument (M a) cr) = yields (M (a + b))
    /\ evaluate example_classes (Arithmetic Plus)
         (Argument (M a) cl) (Argument (W2 b) cr) = rejected
    /\ evaluate example_classes (Arithmetic Plus)
         (Argument (W a) cl) (Argument (W2 b) cr) = rejected
    /\ evaluate example_classes (Arithmetic Plus)
         (Argument (W a) cl) (Argument (int_value b) cr) = rejected
    /\ evaluate example_classes (Arithmetic Plus)
         (Argument (int_value b) cl) (Argument (W a) cr) = rejected.
Proof.
  intros a b cl cr R. unfold evaluate, operand_of.
  cbn [value_of passed_as type_of_value M W W2].
  rewrite resolve_M_plus_int, resolve_int_plus_M.
  rewrite !resolve_plus_other_wrapper by auto.
  destruct (resolve_W_plus_int cl cr) as [-> ->].
  repeat split.
  - unfold call. cbn [value_of passed_as]. unfold M at 1. cbv iota.
    replace (bool_decide ("M" = "M") && wraps_int example_classes "M") with true
      by (vm_compute; reflexivity).
    unfold TYPE_SAFE_DETAIL_MAKE_OP_MIXED_rhs, Int.binary, Int.checked.
    destruct cl; cbn [get_const get_rvalue operator_const_T_ref operator_T_ref value_];
      rewrite R; reflexivity.
  - unfold call. cbn [value_of passed_as]. unfold M at 1. cbv iota.
    replace (bool_decide ("M" = "M") && wraps_int example_classes "M") with true
      by (vm_compute; reflexivity).
    unfold TYPE_SAFE_DETAIL_MAKE_OP_MIXED_lhs, Int.binary, Int.checked.
    rewrite (Z.add_comm a b) in R |- *.
    destruct cr; cbn [get_const get_rvalue operator_const_T_ref operator_T_ref value_];
      rewrite R; reflexivity.
Qed.

Lemma mixed_addition_with_int_witness :
  Int.representable (3 + 4) = true
  /\ evaluate example_classes (Arithmetic Plus)
       (temporary (M 3)) (temporary (int_value 4)) = yields (M 7)
  /\ evaluate example_classes (Arithmetic Plus)
       (temporary (int_value 4)) (temporary (M 3)) = yields (M 7)
  /\ evaluate example_classes (Arithmetic Plus)
       (temporary (M 3)) (temporary (W2 4)) = rejected.
Proof.
  split; [reflexivity|].
  pose proof (mixed_addition_with_int 3 4 rvalue rvalue eq_refl) as (A & B & C & _).
  exact (conj A (conj B C)).
Defined.

(** C5, as the specification states it, fails: with [integer_arithmetic]
    alone neither [W(3) + 4] nor [4 + W(3)] compiles. *)
Lemma integer_arithmetic_rejects_int_operand :
  evaluate example_classes (Arithmetic Plus)
    (temporary (W 3)) (temporary (int_value 4)) = rejected
  /\ evaluate example_classes (Arithmetic Plus)
       (temporary (int_value 4)) (temporary (W 3)) = rejected
  /\ viable example_classes (Arithmetic Plus)
       (Operand (Class "W") rvalue) (Operand (Fundamental Int) rvalue) = [].
Proof. vm_compute. repeat split. Qed.

End overload_facts.

(** ** Further properties of the assertion primitive *)

Section assert_effects.
Import Assert.

(** X1. Whatever the arguments, the primitive either has no effect at all
    or reports once, with the given location and message and an empty
    expression, and aborts right after; the latter exactly when assertions
    are enabled and the condition is false. *)
Theorem constexpr_assert_effects :
  forall (level : Z) (Return : Type) (V : ValueInitializable Return)
         (condition : bool) (loc : source_location) (message : string),
    trace (constexpr_assert level (Return := Return) condition loc message)
    = (if assertions_enabled level && negb condition
       then [handle loc EmptyString message; abort] else [])
    /\ terminated (constexpr_assert level (Return := Return) condition loc message)
       = assertions_enabled level && negb condition.
Proof.
  intros level Return V condition loc message. unfold constexpr_assert.
  destruct (assertions_enabled level), condition; split; reflexivity.
Qed.

End assert_effects.

(** ** Further properties of swap *)

Section swap_facts.
Context {Tag T : Type} `{Movable T}.

Abbreviation S := (strong_typedef Tag T).

Lemma swap_run (h : gmap positive S) (a b : reference) (va vb : T) :
  h !! a = Some (Build va) -> h !! b = Some (Build vb) ->
  swap a b h = Some (tt, <[b := Build va]> (<[a := Build vb]> h)).
Proof.
  intros Ha Hb. unfold swap. destruct (decide (a = b)) as [->|N].
  - assert (va = vb) as -> by congruence.
    rewrite (std_swap_same h b vb Hb), insert_insert_eq. reflexivity.
  - apply std_swap_distinct; assumption.
Qed.

(** X2. [swap(a, b)] and [swap(b, a)] do the same to the store. *)
Theorem swap_symmetric :
  forall (h : gmap positive S) (a b : reference) (va vb : T),
    h !! a = Some (Build va) -> h !! b = Some (Build vb) ->
    swap a b h = swap b a h.
Proof.
  intros h a b va vb Ha Hb.
  rewrite (swap_run h a b va vb Ha Hb), (swap_run h b a vb va Hb Ha).
  destruct (decide (a = b)) as [->|N].
  - assert (va = vb) as -> by congruence. reflexivity.
  - rewrite insert_insert_ne by congruence. reflexivity.
Qed.

(** X3. Swapping twice gives back the store as it was, object for object. *)
Theorem swap_twice :
  forall (h : gmap positive S) (a b : reference) (va vb : T),
    h !! a = Some (Build va) -> h !! b = Some (Build vb) ->
    (swap a b;; swap a b)%stateful h = Some (tt, h).
Proof.
  intros h a b va vb Ha Hb. unfold st_bind.
  rewrite (swap_run h a b va vb Ha Hb).
  destruct (decide (a = b)) as [->|N].
  - assert (va = vb) as -> by congruence.
    rewrite (swap_run _ b b vb vb) by (apply lookup_insert_eq).
    rewrite !insert_insert_eq, insert_id by assumption. reflexivity.
  - rewrite (swap_run _ a b vb va)
      by (first [apply lookup_insert_eq
                |rewrite lookup_insert_ne by congruence; apply lookup_insert_eq]).
    f_equal. f_equal. apply map_eq. intros i.
    destruct (decide (i = b)) as [->|Nb].
    + rewrite lookup_insert_eq. symmetry. assumption.
    + rewrite lookup_insert_ne by congruence.
      destruct (decide (i = a)) as [->|Na].
      * rewrite lookup_insert_eq. symmetry. assumption.
      * rewrite !lookup_insert_ne by congruence. reflexivity.
Qed.

End swap_facts.

Lemma swap_symmetric_witness :
  two_wrappers !! 1%positive = Some (Build 3)
  /\ two_wrappers !! 2%positive = Some (Build 4)
  /\ swap 1%positive 2%positive two_wrappers = swap 2%positive 1%positive two_wrappers.
Proof.
  split; [reflexivity|]. split; [reflexivity|].
  exact (swap_symmetric two_wrappers 1%positive 2%positive 3 4 eq_refl eq_refl).
Defined.

Lemma swap_twice_witness :
  two_wrappers !! 1%positive = Some (Build 3)
  /\ two_wrappers !! 2%positive = Some (Build 4)
  /\ (swap 1%positive 2%positive;; swap 1%positive 2%positive)%stateful two_wrappers
     = Some (tt, two_wrappers).
Proof.
  split; [reflexivity|]. split; [reflexivity|].
  exact (swap_twice two_wrappers 1%positive 2%positive 3 4 eq_refl eq_refl).
Defined.

(** ** Forwarding of operands *)

Section forward_facts.
Import Overloads.

(** X12. Forwarding the named parameter of a generated operator gives the
    operand back with the value category it was passed with; and the
    overload of [forward] for temporaries is rejected exactly when it is
    asked to forward as an lvalue. *)
Theorem forward_restores_category :
  forall (a : operand) (T : qualified_type),
    forward (deduce_Other a) lvalue = Some (category_of a)
    /\ (forward T rvalue = None <-> is_lvalue_reference T = true).
Proof.
  intros [t c] [u k r]. split; [destruct c; reflexivity|].
  unfold forward. destruct (is_lvalue_reference _); split; congruence.
Qed.

End forward_facts.

(** ** Further properties of overload resolution *)

Section resolution_facts.
Import Overloads.
Context (classes : translation_unit).

Lemma flat_map_nil {A B} (f : A -> list B) (l : list A) :
  (forall x, In x l -> f x = []) -> flat_map f l = [].
Proof.
  induction l as [|x l IH]; simpl; intros Hf; [reflexivity|].
  rewrite (Hf x) by (left; reflexivity). apply IH. intros y Hy. apply Hf. right. exact Hy.
Qed.

Lemma flat_map_of_map {A B C} (f : B -> list C) (g : A -> B) (c : C) (l : list A) :
  (forall x, In x l -> f (g x) = [c]) ->
  flat_map f (map g l) = map (fun _ => c) l.
Proof.
  induction l as [|x l IH]; simpl; intros Hf; [reflexivity|].
  rewrite (Hf x) by (left; reflexivity). simpl. f_equal.
  apply IH. intros y Hy. apply Hf. right. exact Hy.
Qed.

Lemma flat_map_of_map_nil {A B C} (f : B -> list C) (g : A -> B) (l : list A) :
  (forall x, In x l -> f (g x) = []) -> flat_map f (map g l) = [].
Proof.
  intros Hf. apply flat_map_nil. intros y Hy.
  apply in_map_iff in Hy as (x & <- & Hx). apply Hf, Hx.
Qed.

Lemma remove_dups_map_pair {A} `{EqDecision A} (a : string) (l : list A) :
  remove_dups (map (pair a) l) = map (pair a) (remove_dups l).
Proof.
  induction l as [|x l IH]; [reflexivity|]. cbn [map remove_dups].
  destruct (decide_rel elem_of (a, x) (map (pair a) l)) as [I|N],
    (decide_rel elem_of x l) as [I'|N']; cbn [map]; rewrite IH; try reflexivity.
  - exfalso. apply N'. apply list_elem_of_In, in_map_iff in I as (y & E & Iy).
    injection E as ->. apply list_elem_of_In, Iy.
  - exfalso. apply N. apply list_elem_of_In, in_map. apply list_elem_of_In, I'.
Qed.

Lemma remove_dups_twice {A} `{EqDecision A} (l : list A) :
  remove_dups (l ++ l) = remove_dups l.
Proof.
  assert (G : forall k m : list A, (forall x, x ∈ k -> x ∈ m) ->
                remove_dups (k ++ m) = remove_dups m).
  { induction k as [|x k IH]; intros m Hk; [reflexivity|].
    cbn [app remove_dups].
    destruct (decide_rel elem_of x (k ++ m)) as [_|N].
    - apply IH. intros y Hy. apply Hk. right. exact Hy.
    - exfalso. apply N. apply elem_of_app. right. apply Hk. left. }
  apply G. auto.
Qed.

Lemma decay_deduce_Other (o : operand) :
  decay (add_rvalue_reference (deduce_Other o)) = type_of o.
Proof. destruct o as [t []]; reflexivity. Qed.

(** *** Deduction from a known list of bases *)

Lemma filter_map_pair (a : string) (Name : capability) (l : list capability) :
  List.filter (fun b : string * capability => bool_decide (snd b = Name)) (map (pair a) l)
  = map (pair a) (List.filter (fun k => bool_decide (k = Name)) l).
Proof.
  induction l as [|k l IH]; simpl; [reflexivity|].
  destruct (bool_decide (k = Name)); simpl; rewrite IH; reflexivity.
Qed.

Lemma deduce_Name_of_bases (t : type) (a : string) (l : list capability) (Name : capability) :
  capability_bases classes t = map (pair a) l ->
  deduce_Name classes Name t = if occurs_once Name l then Some a else None.
Proof.
  intros B. unfold deduce_Name, occurs_once. rewrite B, filter_map_pair.
  destruct (List.filter _ l) as [|k [|k' r]]; reflexivity.
Qed.

Lemma omap_map_pair (a : string) (op : operator) (l : list capability) :
  omap (fun b : string * capability =>
          A ← second_argument (snd b);
          if bool_decide (snd b = MAKE_OP_MIXED_Name op A) then Some (fst b, A) else None)
       (map (pair a) l)
  = map (pair a) (mixed_arguments op l).
Proof.
  unfold mixed_arguments, omap.
  induction l as [|k l IH]; simpl; [reflexivity|].
  unfold mixed_argument at 1.
  destruct (second_argument k) as [A|]; simpl; [|exact IH].
  destruct (bool_decide (k = MAKE_OP_MIXED_Name op A)); simpl; rewrite IH; reflexivity.
Qed.

Lemma deduce_mixed_Name_of_bases (t : type) (a : string) (l : list capability)
    (op : operator) :
  capability_bases classes t = map (pair a) l ->
  deduce_mixed_Name classes op t
  = match mixed_arguments op l with
    | [A] => Some (a, A)
    | _ => None
    end.
Proof.
  intros B. unfold deduce_mixed_Name. rewrite B, omap_map_pair.
  destruct (mixed_arguments op l) as [|A [|A' r]]; reflexivity.
Qed.

Lemma omap_distances (a : string) (l : list capability) :
  omap (fun b : string * capability =>
          match snd b with
          | random_access_iterator D => Some (fst b, D)
          | _ => None
          end) (map (pair a) l)
  = map (pair a) (distances l).
Proof.
  unfold distances, omap.
  induction l as [|k l IH]; simpl; [reflexivity|].
  destruct k; simpl; rewrite IH; reflexivity.
Qed.

Lemma random_access_iterators_of_bases (t1 t2 : type) (a b : string)
    (la lb : list capability) (cl cr : value_category) :
  capability_bases classes t1 = map (pair a) la ->
  capability_bases classes t2 = map (pair b) lb ->
  random_access_iterators classes (Operand t1 cl) (Operand t2 cr)
  = map (pair a) (distances la) ++ map (pair b) (distances lb).
Proof.
  intros B1 B2. unfold random_access_iterators. simpl type_of.
  rewrite B1, B2, omap_app, !omap_distances. reflexivity.
Qed.

Lemma fundamental_argument_of (l : list capability) (k : capability) (A : type) :
  fundamental_arguments l = true -> In k l -> second_argument k = Some A ->
  exists f, A = Fundamental f.
Proof.
  unfold fundamental_arguments. rewrite forallb_forall. intros F I E.
  specialize (F k I). rewrite E in F. destruct A as [f|c]; [eauto|discriminate].
Qed.

Lemma mixed_arguments_fundamental (op : operator) (l : list capability) (A : type) :
  fundamental_arguments l = true -> In A (mixed_arguments op l) ->
  exists f, A = Fundamental f.
Proof.
  intros F I. apply list_elem_of_In, list_elem_of_omap in I as (k & Ik & E).
  unfold mixed_argument in E.
  destruct (second_argument k) as [A'|] eqn:EA; simpl in E; [|discriminate].
  destruct (bool_decide _); [|discriminate]. injection E as ->.
  apply (fundamental_argument_of l k A F); [apply list_elem_of_In; exact Ik|exact EA].
Qed.

Lemma distances_fundamental (l : list capability) (D : type) :
  fundamental_arguments l = true -> In D (distances l) ->
  exists f, D = Fundamental f.
Proof.
  intros F I. apply list_elem_of_In, list_elem_of_omap in I as (k & Ik & E).
  destruct k; try discriminate. injection E as ->.
  apply (fundamental_argument_of l (random_access_iterator D) D F);
    [apply list_elem_of_In; exact Ik|reflexivity].
Qed.

(** *** A class declared as a strong typedef and nothing else *)

Lemma plain_capability_bases_upto (depth : nat) a T caps :
  classes !! a = Some (strong_typedef_class T caps) ->
  capability_bases_upto classes depth a = map (pair a) (bases_of caps).
Proof.
  intros E. destruct depth; simpl; rewrite E; simpl; rewrite app_nil_r; reflexivity.
Qed.

Lemma plain_capability_bases a T caps :
  classes !! a = Some (strong_typedef_class T caps) ->
  capability_bases classes (Class a) = map (pair a) (bases_of caps).
Proof. intros E. apply (plain_capability_bases_upto _ a T caps E). Qed.

Lemma plain_all_conversions_upto (depth : nat) a T caps :
  classes !! a = Some (strong_typedef_class T caps) ->
  all_conversions_upto classes depth a = strong_typedef_conversions T.
Proof. intros E. destruct depth; simpl; rewrite E; reflexivity. Qed.

Lemma plain_derives_from_upto (depth : nat) a T caps d :
  classes !! a = Some (strong_typedef_class T caps) ->
  derives_from_upto classes depth a d = bool_decide (a = d).
Proof.
  intros E. destruct depth; simpl; rewrite ?E; simpl; apply orb_false_r.
Qed.

Lemma plain_arithmetic_operand a T caps :
  classes !! a = Some (strong_typedef_class T caps) ->
  arithmetic_operand classes (Class a) = false.
Proof.
  intros E. unfold arithmetic_operand, all_conversions.
  rewrite (plain_all_conversions_upto _ a T caps E). reflexivity.
Qed.

Lemma plain_conversion_function a T caps To :
  classes !! a = Some (strong_typedef_class T caps) ->
  conversion_function classes (Class a) To = false.
Proof.
  intros E. unfold conversion_function, all_conversions.
  rewrite (plain_all_conversions_upto _ a T caps E). reflexivity.
Qed.

Lemma plain_converting_constructor a T caps From :
  classes !! a = Some (strong_typedef_class T caps) ->
  converting_constructor classes From (Class a) = false.
Proof.
  intros E. unfold converting_constructor, all_constructors. rewrite E. reflexivity.
Qed.

Lemma plain_to_fundamental a T caps f :
  classes !! a = Some (strong_typedef_class T caps) ->
  is_convertible classes (Class a) (Fundamental f) = false.
Proof.
  intros E. unfold is_convertible.
  rewrite (plain_conversion_function a T caps _ E). reflexivity.
Qed.

Lemma plain_from_fundamental a T caps f :
  classes !! a = Some (strong_typedef_class T caps) ->
  is_convertible classes (Fundamental f) (Class a) = false.
Proof.
  intros E. unfold is_convertible.
  rewrite (plain_converting_constructor a T caps _ E). reflexivity.
Qed.

Lemma plain_to_itself a T caps :
  classes !! a = Some (strong_typedef_class T caps) ->
  is_convertible classes (Class a) (Class a) = true.
Proof.
  intros E. unfold is_convertible. simpl. unfold derives_from.
  rewrite (plain_derives_from_upto _ a T caps a E), bool_decide_eq_true_2 by reflexivity.
  reflexivity.
Qed.

Lemma plain_to_other a b Ta Tb capsa capsb :
  classes !! a = Some (strong_typedef_class Ta capsa) ->
  classes !! b = Some (strong_typedef_class Tb capsb) ->
  a <> b ->
  is_convertible classes (Class a) (Class b) = false.
Proof.
  intros Ea Eb N. unfold is_convertible.
  rewrite (plain_conversion_function a Ta capsa _ Ea),
    (plain_converting_constructor b Tb capsb _ Eb). simpl. unfold derives_from.
  rewrite (plain_derives_from_upto _ a Ta capsa b Ea), bool_decide_eq_false_2 by assumption.
  reflexivity.
Qed.

Lemma plain_wraps_int a caps :
  classes !! a = Some (strong_typedef_class (Fundamental Int) caps) ->
  wraps_int classes a = true.
Proof. intros E. unfold wraps_int. rewrite E. reflexivity. Qed.

(** *** The friends of [random_access_iterator] *)

Lemma remove_dups_distances_fundamental (l : list capability) (D : type) :
  fundamental_arguments l = true -> In D (remove_dups (distances l)) ->
  exists f, D = Fundamental f.
Proof.
  intros F I. apply (distances_fundamental l D F).
  rewrite <- list_elem_of_In, elem_of_remove_dups, list_elem_of_In in I. exact I.
Qed.

(** *** Operands that share the bases of one strong typedef *)

Lemma iterator_candidates_sharing a caps t1 t2 op cl cr :
  operand_of_strong_typedef classes a (bases_of caps) t1 ->
  operand_of_strong_typedef classes a (bases_of caps) t2 ->
  fundamental_arguments (bases_of caps) = true ->
  iterator_candidates classes op (Operand t1 cl) (Operand t2 cr)
  = if is_minus op then iterator_friends (iterator_and_iterator a) caps else [].
Proof.
  intros (B1 & _ & _ & S1 & C1) (B2 & _ & _ & S2 & C2) F.
  unfold iterator_candidates, iterator_friends.
  rewrite (random_access_iterators_of_bases t1 t2 a a _ _ cl cr B1 B2),
    remove_dups_twice, remove_dups_map_pair.
  destruct (is_minus op) eqn:M.
  - destruct op as [[]|]; try discriminate.
    apply flat_map_of_map. intros D HD.
    destruct (remove_dups_distances_fundamental _ D F HD) as [f ->].
    simpl type_of. simpl fst. simpl snd. rewrite S1, S2, C2. reflexivity.
  - apply flat_map_of_map_nil. intros D HD.
    destruct (remove_dups_distances_fundamental _ D F HD) as [f ->].
    simpl type_of. simpl fst. simpl snd. rewrite C1, C2, !andb_false_r.
    destruct op as [[]|]; try reflexivity; discriminate.
Qed.

Lemma viable_sharing_bases a caps t1 t2 op cl cr :
  operand_of_strong_typedef classes a (bases_of caps) t1 ->
  operand_of_strong_typedef classes a (bases_of caps) t2 ->
  fundamental_arguments (bases_of caps) = true ->
  viable classes op (Operand t1 cl) (Operand t2 cr) = same_class_candidates a caps op.
Proof.
  intros O1 O2 F.
  pose proof (iterator_candidates_sharing a caps t1 t2 op cl cr O1 O2 F) as I.
  destruct O1 as (B1 & A1 & S1 & _ & C1), O2 as (B2 & A2 & S2 & _ & C2). unfold viable.
  assert (B : builtin_candidates classes (Operand t1 cl) (Operand t2 cr) = []).
  { unfold builtin_candidates. simpl type_of. rewrite A1. reflexivity. }
  assert (X : MAKE_OP_MIXED_candidates classes op (Operand t1 cl) (Operand t2 cr) = []).
  { unfold MAKE_OP_MIXED_candidates. simpl type_of.
    rewrite (deduce_mixed_Name_of_bases t1 a _ op B1),
      (deduce_mixed_Name_of_bases t2 a _ op B2).
    destruct (mixed_arguments op (bases_of caps)) as [|A [|A' r]] eqn:EA; try reflexivity.
    destruct (mixed_arguments_fundamental op _ A F) as [f ->];
      [rewrite EA; left; reflexivity|].
    unfold MAKE_OP_MIXED_enabled, enable_if_convertible_same.
    rewrite !decay_deduce_Other. simpl type_of. rewrite C1, C2. reflexivity. }
  assert (O : MAKE_OP_candidates classes op (Operand t1 cl) (Operand t2 cr)
              = if provides caps op then [same_type a] else []).
  { unfold MAKE_OP_candidates, provides.
    destruct (MAKE_OP_Name op) as [Name|]; [|reflexivity].
    simpl type_of.
    rewrite (deduce_Name_of_bases t1 a _ Name B1), (deduce_Name_of_bases t2 a _ Name B2).
    destruct (occurs_once Name (bases_of caps)); [|reflexivity].
    rewrite bool_decide_eq_true_2 by reflexivity.
    unfold MAKE_OP_mixed_enabled, enable_if_convertible. rewrite !decay_deduce_Other.
    simpl type_of. rewrite S1, S2, !andb_false_r. reflexivity. }
  rewrite B, X, I, O. reflexivity.
Qed.

Lemma plain_operand a T caps :
  classes !! a = Some (strong_typedef_class T caps) ->
  operand_of_strong_typedef classes a (bases_of caps) (Class a).
Proof.
  intros E. split; [apply (plain_capability_bases a T caps E)|].
  split; [apply (plain_arithmetic_operand a T caps E)|].
  split; [|split; [apply (plain_to_itself a T caps E)
                  |intros f; apply (plain_to_fundamental a T caps f E)]].
  simpl. unfold derives_from.
  rewrite (plain_derives_from_upto _ a T caps a E). apply bool_decide_eq_true_2. reflexivity.
Qed.

Lemma size_of_declared (d : string) (decl : class_declaration) :
  classes !! d = Some decl -> exists k, size classes = S k.
Proof.
  intros E. destruct (size classes) as [|k] eqn:Z; [|eauto].
  apply map_size_empty_iff in Z. rewrite Z, lookup_empty in E. discriminate.
Qed.

Lemma derived_operand d a T caps :
  classes !! d = Some (derived_class a) ->
  classes !! a = Some (strong_typedef_class T caps) ->
  operand_of_strong_typedef classes a (bases_of caps) (Class d).
Proof.
  intros Ed Ea. destruct (size_of_declared d _ Ed) as [k Z].
  assert (DF : derives_from classes d a = true).
  { unfold derives_from. rewrite Z. simpl. rewrite Ed. simpl.
    rewrite (plain_derives_from_upto k a T caps a Ea),
      (bool_decide_eq_true_2 (a = a)) by reflexivity.
    simpl. apply orb_true_r. }
  split; [|split; [|split; [|split]]].
  - unfold capability_bases. rewrite Z. simpl. rewrite Ed. simpl.
    rewrite (plain_capability_bases_upto k a T caps Ea), app_nil_r. reflexivity.
  - unfold arithmetic_operand, all_conversions. rewrite Z. simpl. rewrite Ed. simpl.
    rewrite (plain_all_conversions_upto k a T caps Ea). reflexivity.
  - exact DF.
  - unfold is_convertible. simpl standard_conversion. rewrite DF. reflexivity.
  - intros f. unfold is_convertible, conversion_function, all_conversions.
    rewrite Z. simpl. rewrite Ed. simpl.
    rewrite (plain_all_conversions_upto k a T caps Ea). reflexivity.
Qed.

Lemma viable_same_class a T caps op cl cr :
  classes !! a = Some (strong_typedef_class T caps) ->
  fundamental_arguments (bases_of caps) = true ->
  viable classes op (Operand (Class a) cl) (Operand (Class a) cr)
  = same_class_candidates a caps op.
Proof.
  intros E F.
  exact (viable_sharing_bases a caps (Class a) (Class a) op cl cr
           (plain_operand a T caps E) (plain_operand a T caps E) F).
Qed.

(** Without the difference of two iterators in the way, the operator over
    two strong typedefs is the only candidate. *)
Lemma same_class_candidates_provided a caps op :
  (is_minus op = true -> distances (bases_of caps) = []) ->
  same_class_candidates a caps op = if provides caps op then [same_type a] else [].
Proof.
  intros M. unfold same_class_candidates, iterator_friends.
  destruct (is_minus op); [rewrite (M eq_refl)|]; simpl; apply app_nil_r.
Qed.

Lemma plain_deduce_Name a T caps Name :
  classes !! a = Some (strong_typedef_class T caps) ->
  deduce_Name classes Name (Class a)
  = if occurs_once Name (bases_of caps) then Some a else None.
Proof.
  intros E. apply deduce_Name_of_bases, (plain_capability_bases a T caps E).
Qed.

Lemma plain_deduce_mixed_Name a T caps op :
  classes !! a = Some (strong_typedef_class T caps) ->
  deduce_mixed_Name classes op (Class a)
  = match mixed_arguments op (bases_of caps) with
    | [A] => Some (a, A)
    | _ => None
    end.
Proof.
  intros E. apply deduce_mixed_Name_of_bases, (plain_capability_bases a T caps E).
Qed.

Lemma plain_random_access_iterators a b Ta Tb capsa capsb cl cr :
  classes !! a = Some (strong_typedef_class Ta capsa) ->
  classes !! b = Some (strong_typedef_class Tb capsb) ->
  random_access_iterators classes (Operand (Class a) cl) (Operand (Class b) cr)
  = map (pair a) (distances (bases_of capsa)) ++ map (pair b) (distances (bases_of capsb)).
Proof.
  intros Ea Eb.
  apply random_access_iterators_of_bases;
    [apply (plain_capability_bases a Ta capsa Ea)|apply (plain_capability_bases b Tb capsb Eb)].
Qed.

(** *** Two different strong typedefs *)

Lemma viable_distinct_classes a b Ta Tb capsa capsb op cl cr :
  classes !! a = Some (strong_typedef_class Ta capsa) ->
  classes !! b = Some (strong_typedef_class Tb capsb) ->
  a <> b ->
  fundamental_arguments (bases_of capsa) = true ->
  fundamental_arguments (bases_of capsb) = true ->
  viable classes op (Operand (Class a) cl) (Operand (Class b) cr) = [].
Proof.
  intros Ea Eb N Fa Fb. unfold viable.
  assert (Nba : b <> a) by congruence.
  assert (B : builtin_candidates classes (Operand (Class a) cl) (Operand (Class b) cr) = []).
  { unfold builtin_candidates. simpl type_of.
    rewrite (plain_arithmetic_operand a Ta capsa Ea). reflexivity. }
  assert (O : MAKE_OP_candidates classes op (Operand (Class a) cl) (Operand (Class b) cr)
              = []).
  { unfold MAKE_OP_candidates. destruct (MAKE_OP_Name op) as [Name|]; [|reflexivity].
    simpl type_of.
    rewrite (plain_deduce_Name a Ta capsa Name Ea), (plain_deduce_Name b Tb capsb Name Eb).
    destruct (occurs_once Name (bases_of capsa)), (occurs_once Name (bases_of capsb));
      cbv iota beta;
      unfold MAKE_OP_mixed_enabled, enable_if_convertible; rewrite ?decay_deduce_Other;
      simpl type_of;
      rewrite ?(plain_to_other a b Ta Tb capsa capsb Ea Eb N),
        ?(plain_to_other b a Tb Ta capsb capsa Eb Ea Nba), ?andb_false_r;
      rewrite ?bool_decide_eq_false_2 by assumption; reflexivity. }
  assert (X : MAKE_OP_MIXED_candidates classes op (Operand (Class a) cl) (Operand (Class b) cr)
              = []).
  { unfold MAKE_OP_MIXED_candidates. simpl type_of.
    rewrite (plain_deduce_mixed_Name a Ta capsa op Ea),
      (plain_deduce_mixed_Name b Tb capsb op Eb).
    unfold MAKE_OP_MIXED_enabled, enable_if_convertible_same.
    rewrite !decay_deduce_Other. simpl type_of.
    assert (L : match mixed_arguments op (bases_of capsa) with
                | [A] => Some (a, A) | _ => None end
                = None
                \/ exists f, match mixed_arguments op (bases_of capsa) with
                             | [A] => Some (a, A) | _ => None end
                             = Some (a, Fundamental f)).
    { destruct (mixed_arguments op (bases_of capsa)) as [|A [|A' l]] eqn:EA; auto.
      destruct (mixed_arguments_fundamental op (bases_of capsa) A Fa) as [f ->];
        [rewrite EA; left; reflexivity|eauto]. }
    assert (R : match mixed_arguments op (bases_of capsb) with
                | [A] => Some (b, A) | _ => None end
                = None
                \/ exists f, match mixed_arguments op (bases_of capsb) with
                             | [A] => Some (b, A) | _ => None end
                             = Some (b, Fundamental f)).
    { destruct (mixed_arguments op (bases_of capsb)) as [|A [|A' l]] eqn:EA; auto.
      destruct (mixed_arguments_fundamental op (bases_of capsb) A Fb) as [f ->];
        [rewrite EA; left; reflexivity|eauto]. }
    destruct L as [->|[f ->]], R as [->|[g ->]];
      rewrite ?(plain_to_fundamental a Ta capsa _ Ea),
        ?(plain_to_fundamental b Tb capsb _ Eb); reflexivity. }
  assert (I : iterator_candidates classes op (Operand (Class a) cl) (Operand (Class b) cr)
              = []).
  { unfold iterator_candidates. apply flat_map_nil. intros [s D] HI.
    rewrite <- list_elem_of_In, elem_of_remove_dups, list_elem_of_In in HI.
    rewrite (plain_random_access_iterators a b Ta Tb capsa capsb cl cr Ea Eb) in HI.
    assert (HD : exists f, D = Fundamental f).
    { apply in_app_iff in HI.
      destruct HI as [HI|HI]; apply in_map_iff in HI as (D' & HE & HI);
        injection HE as <- <-;
        [apply (distances_fundamental _ D' Fa HI)|apply (distances_fundamental _ D' Fb HI)]. }
    destruct HD as [f ->]. simpl type_of. simpl fst. simpl snd.
    rewrite (plain_to_fundamental a Ta capsa f Ea), (plain_to_fundamental b Tb capsb f Eb).
    assert (S1 : is_convertible classes (Class a) (Class s)
                 && is_convertible classes (Class b) (Class s) = false).
    { destruct (decide (s = a)) as [->|Na].
      - rewrite (plain_to_other b a Tb Ta capsb capsa Eb Ea Nba).
        apply andb_false_r.
      - apply in_app_iff in HI.
        destruct HI as [HI|HI]; apply in_map_iff in HI as (D' & HE & HI);
          injection HE as <- _; [congruence|].
        rewrite (plain_to_other a b Ta Tb capsa capsb Ea Eb N). reflexivity. }
    rewrite S1, !andb_false_r. simpl.
    destruct op as [[]|]; reflexivity. }
  rewrite B, O, X, I. reflexivity.
Qed.

(** *** A strong typedef and an operand of arithmetic type *)

Lemma viable_with_fundamental a T caps op f cl cr :
  classes !! a = Some (strong_typedef_class T caps) ->
  fundamental_arguments (bases_of caps) = true ->
  viable classes op (Operand (Class a) cl) (Operand (Fundamental f) cr)
  = arithmetic_rhs_candidates a caps op (deduce_Other (Operand (Fundamental f) cr))
  /\ viable classes op (Operand (Fundamental f) cl) (Operand (Class a) cr)
     = arithmetic_lhs_candidates a caps op (deduce_Other (Operand (Fundamental f) cl)).
Proof.
  intros E F. unfold viable.
  assert (B1 : builtin_candidates classes (Operand (Class a) cl) (Operand (Fundamental f) cr)
               = []).
  { unfold builtin_candidates. simpl type_of.
    rewrite (plain_arithmetic_operand a T caps E). reflexivity. }
  assert (B2 : builtin_candidates classes (Operand (Fundamental f) cl) (Operand (Class a) cr)
               = []).
  { unfold builtin_candidates. simpl type_of.
    rewrite (plain_arithmetic_operand a T caps E). apply andb_false_r || reflexivity. }
  assert (DN : forall Name, deduce_Name classes Name (Fundamental f) = None).
  { reflexivity. }
  assert (O1 : MAKE_OP_candidates classes op (Operand (Class a) cl) (Operand (Fundamental f) cr)
               = []).
  { unfold MAKE_OP_candidates. destruct (MAKE_OP_Name op) as [Name|]; [|reflexivity].
    simpl type_of. rewrite DN, (plain_deduce_Name a T caps Name E).
    destruct (occurs_once Name (bases_of caps)); cbv iota beta;
      unfold MAKE_OP_mixed_enabled, enable_if_convertible; rewrite ?decay_deduce_Other;
      simpl type_of; rewrite ?(plain_from_fundamental a T caps f E), ?andb_false_r;
      reflexivity. }
  assert (O2 : MAKE_OP_candidates classes op (Operand (Fundamental f) cl) (Operand (Class a) cr)
               = []).
  { unfold MAKE_OP_candidates. destruct (MAKE_OP_Name op) as [Name|]; [|reflexivity].
    simpl type_of. rewrite DN, (plain_deduce_Name a T caps Name E).
    destruct (occurs_once Name (bases_of caps)); cbv iota beta;
      unfold MAKE_OP_mixed_enabled, enable_if_convertible; rewrite ?decay_deduce_Other;
      simpl type_of; rewrite ?(plain_from_fundamental a T caps f E), ?andb_false_r;
      reflexivity. }
  pose proof (plain_to_itself a T caps E) as SS.
  pose proof (plain_from_fundamental a T caps f E) as FS.
  assert (I1 : iterator_candidates classes op (Operand (Class a) cl)
                 (Operand (Fundamental f) cr)
               = if is_plus_or_minus op
                 then iterator_friends (iterator_and_distance a) caps else []).
  { unfold iterator_candidates, random_access_iterators, iterator_friends. simpl type_of.
    rewrite (plain_capability_bases a T caps E).
    change (capability_bases classes (Fundamental f)) with (@nil (string * capability)).
    rewrite app_nil_r, omap_distances, remove_dups_map_pair.
    destruct (is_plus_or_minus op) eqn:M.
    - apply flat_map_of_map. intros D HD.
      destruct (remove_dups_distances_fundamental _ D F HD) as [g ->].
      simpl fst. simpl snd.
      rewrite SS, FS, (plain_to_fundamental a T caps g E).
      destruct op as [[]|]; try discriminate; reflexivity.
    - apply flat_map_of_map_nil. intros D _.
      destruct op as [[]|]; try reflexivity; discriminate. }
  assert (I2 : iterator_candidates classes op (Operand (Fundamental f) cl)
                 (Operand (Class a) cr)
               = if is_plus op then iterator_friends (distance_and_iterator a) caps else []).
  { unfold iterator_candidates, random_access_iterators, iterator_friends. simpl type_of.
    rewrite (plain_capability_bases a T caps E).
    change (capability_bases classes (Fundamental f)) with (@nil (string * capability)).
    rewrite app_nil_l, omap_distances, remove_dups_map_pair.
    destruct (is_plus op) eqn:M.
    - apply flat_map_of_map. intros D HD.
      destruct (remove_dups_distances_fundamental _ D F HD) as [g ->].
      simpl fst. simpl snd. rewrite SS, FS.
      destruct op as [[]|]; try discriminate; reflexivity.
    - apply flat_map_of_map_nil. intros D HD.
      destruct (remove_dups_distances_fundamental _ D F HD) as [g ->].
      simpl fst. simpl snd. rewrite FS.
      destruct op as [[]|]; try reflexivity; discriminate. }
  rewrite B1, B2, O1, O2, I1, I2. cbn [app].
  unfold arithmetic_rhs_candidates, arithmetic_lhs_candidates.
  unfold MAKE_OP_MIXED_candidates. simpl type_of.
  rewrite (plain_deduce_mixed_Name a T caps op E).
  assert (DM : deduce_mixed_Name classes op (Fundamental f) = None) by reflexivity.
  rewrite DM, app_nil_r. cbn [app].
  destruct (mixed_arguments op (bases_of caps)) as [|A [|A' l]] eqn:EA; try (split; reflexivity).
  destruct (mixed_arguments_fundamental op (bases_of caps) A F) as [g ->];
    [rewrite EA; left; reflexivity|].
  unfold MAKE_OP_MIXED_enabled, enable_if_convertible_same. rewrite !decay_deduce_Other.
  split; reflexivity.
Qed.

(** Without the friends of an iterator in the way, the mixed operator is the
    only candidate. *)
Lemma arithmetic_candidates_mixed a caps op Other :
  (is_plus_or_minus op = true -> distances (bases_of caps) = []) ->
  arithmetic_rhs_candidates a caps op Other
  = match mixed_arguments op (bases_of caps) with
    | [OtherArg] => [mixed_rhs a OtherArg Other]
    | _ => []
    end
  /\ arithmetic_lhs_candidates a caps op Other
     = match mixed_arguments op (bases_of caps) with
       | [OtherArg] => [mixed_lhs a OtherArg Other]
       | _ => []
       end.
Proof.
  intros M. unfold arithmetic_rhs_candidates, arithmetic_lhs_candidates, iterator_friends.
  assert (P : is_plus op = true -> is_plus_or_minus op = true).
  { destruct op as [[]|]; auto. }
  destruct (is_plus op); [rewrite (M (P eq_refl))|];
    (destruct (is_plus_or_minus op); [rewrite ?(M eq_refl)|]);
    simpl; rewrite !app_nil_r; split; reflexivity.
Qed.

(** *** The class a capability base is deduced from *)

Lemma capability_bases_derive (depth : nat) :
  forall (c l : string) (k : capability),
    In (l, k) (capability_bases_upto classes depth c) ->
    derives_from_upto classes depth c l = true.
Proof.
  induction depth as [|d IH]; intros c l k; simpl;
    destruct (classes !! c) as [decl|] eqn:E; try (intros []);
    rewrite in_app_iff; intros [I|I].
  - apply in_map_iff in I as (k' & HE & _). injection HE as -> _.
    rewrite bool_decide_eq_true_2 by reflexivity. reflexivity.
  - destruct I.
  - apply in_map_iff in I as (k' & HE & _). injection HE as -> _.
    rewrite bool_decide_eq_true_2 by reflexivity. reflexivity.
  - apply in_flat_map in I as (b & Ib & I).
    apply orb_true_iff. right. apply existsb_exists. exists b. split; [exact Ib|].
    apply (IH b l k I).
Qed.

Lemma deduce_Name_base (Name : capability) (t : type) (l : string) :
  deduce_Name classes Name t = Some l -> is_base_of classes (Class l) t = true.
Proof.
  unfold deduce_Name.
  destruct (List.filter _ (capability_bases classes t)) as [|b [|b' r]] eqn:F;
    try discriminate.
  intros [= <-].
  assert (I : In b (capability_bases classes t)).
  { apply (proj1 (filter_In (fun b : string * capability => bool_decide (snd b = Name))
                        b (capability_bases classes t))).
    rewrite F. left. reflexivity. }
  destruct t as [f|c]; [destruct I|]. destruct b as [l k]. simpl.
  apply (capability_bases_derive _ c l k I).
Qed.

(** X4. Whenever the operator over two strong typedefs is a candidate, it
    is the only one [TYPE_SAFE_DETAIL_MAKE_OP] contributes: its two
    overloads with a convertible other operand are disabled, because
    [enable_if_convertible] refuses an operand that has the strong typedef
    as a base.  This holds in every translation unit and for all operands. *)
Theorem same_type_excludes_mixed :
  forall (op : operator) (lhs rhs : operand) (l : string),
    In (same_type l) (MAKE_OP_candidates classes op lhs rhs) ->
    MAKE_OP_candidates classes op lhs rhs = [same_type l].
Proof.
  intros op lhs rhs l.
  unfold MAKE_OP_candidates. destruct (MAKE_OP_Name op) as [Name|]; [|intros []].
  destruct (deduce_Name classes Name (type_of lhs)) as [x|] eqn:L;
    destruct (deduce_Name classes Name (type_of rhs)) as [y|] eqn:R.
  - pose proof (deduce_Name_base Name _ x L) as BL.
    pose proof (deduce_Name_base Name _ y R) as BR.
    unfold MAKE_OP_mixed_enabled, enable_if_convertible. rewrite !decay_deduce_Other.
    destruct (bool_decide (x = y)) eqn:XY.
    + apply bool_decide_eq_true in XY. subst y.
      rewrite BL, BR, !andb_false_r. simpl.
      intros [[= ->]|[]]. reflexivity.
    + simpl. intros I. exfalso.
      apply in_app_iff in I. destruct I as [I|I].
      * destruct (_ && _ && _); [destruct I as [I|[]]; discriminate|destruct I].
      * destruct (_ && _ && _); [destruct I as [I|[]]; discriminate|destruct I].
  - simpl. rewrite app_nil_r. intros I. exfalso.
    destruct (MAKE_OP_mixed_enabled _ _ _); [destruct I as [I|[]]; discriminate|destruct I].
  - simpl. intros I. exfalso.
    destruct (MAKE_OP_mixed_enabled _ _ _); [destruct I as [I|[]]; discriminate|destruct I].
  - intros [].
Qed.

(** X5. No binary operator of the header applies to operands of two
    different strong typedefs, whatever capabilities the two list and
    whatever they wrap: the strong typedefs stay distinct types. *)
Theorem distinct_strong_typedefs_never_mix :
  forall (a b : string) (Ta Tb : type) (capsa capsb : list capability)
         (op : operator) (cl cr : value_category),
    classes !! a = Some (strong_typedef_class Ta capsa) ->
    classes !! b = Some (strong_typedef_class Tb capsb) ->
    a <> b ->
    fundamental_arguments (bases_of capsa) = true ->
    fundamental_arguments (bases_of capsb) = true ->
    resolve classes op (Operand (Class a) cl) (Operand (Class b) cr) = no_viable_function.
Proof.
  intros a b Ta Tb capsa capsb op cl cr Ea Eb N Fa Fb. unfold resolve.
  rewrite (viable_distinct_classes a b Ta Tb capsa capsb op cl cr Ea Eb N Fa Fb).
  reflexivity.
Qed.

(** X6. Take a class declared as a strong typedef and nothing else, whose
    capabilities have arithmetic types only as second argument.  For two
    operands of that class the viable operator functions are the operator
    over two strong typedefs, when the capability that generates it is among
    the bases exactly once, and for [-] the difference of two iterators, one
    for each [random_access_iterator] base.  So for an operator other than
    [-], or without a [random_access_iterator] base, an operator is found
    exactly when its capability is a base, and it is never ambiguous.  The
    shift operators have no capability of this kind. *)
Theorem same_type_operator_gating :
  forall (a : string) (T : type) (caps : list capability) (op : operator)
         (cl cr : value_category),
    classes !! a = Some (strong_typedef_class T caps) ->
    fundamental_arguments (bases_of caps) = true ->
    resolve classes op (Operand (Class a) cl) (Operand (Class a) cr)
    = choose (same_class_candidates a caps op)
    /\ ((is_minus op = true -> distances (bases_of caps) = []) ->
        resolve classes op (Operand (Class a) cl) (Operand (Class a) cr)
        = if provides caps op then selected (same_type a) else no_viable_function)
    /\ (provides caps (Arithmetic ShiftLeft) = false
        /\ provides caps (Arithmetic ShiftRight) = false).
Proof.
  intros a T caps op cl cr E F.
  assert (R : resolve classes op (Operand (Class a) cl) (Operand (Class a) cr)
              = choose (same_class_candidates a caps op)).
  { unfold resolve. rewrite (viable_same_class a T caps op cl cr E F). reflexivity. }
  split; [exact R|]. split; [|split; reflexivity].
  intros M. rewrite R, (same_class_candidates_provided a caps op M).
  destruct (provides caps op); reflexivity.
Qed.

(** X7. Take a class declared as a strong typedef of [int] and nothing
    else, whose capabilities have arithmetic types only as second argument,
    and which, where the operator is [-], has no [random_access_iterator]
    base.  The operator over two strong typedefs applies the operator of
    [int] to the two stored values, in their order, and gives the result
    back in the same strong typedef, or as a plain [bool] for a comparison;
    where the operation on [int] is undefined so is the one on the strong
    typedef; without the capability the expression is rejected.  Value
    categories do not matter. *)
Theorem same_type_operator_on_int :
  forall (a : string) (caps : list capability) (op : operator) (x y : Z)
         (cl cr : value_category),
    classes !! a = Some (strong_typedef_class (Fundamental Int) caps) ->
    fundamental_arguments (bases_of caps) = true ->
    (is_minus op = true -> distances (bases_of caps) = []) ->
    evaluate classes op (Argument (strong_value a (Build x)) cl)
      (Argument (strong_value a (Build y)) cr)
    = if provides caps op then result_on_int a op x y else rejected.
Proof.
  intros a caps op x y cl cr E F M. unfold evaluate, resolve, operand_of.
  cbn [value_of passed_as type_of_value].
  rewrite (viable_same_class a _ caps op cl cr E F),
    (same_class_candidates_provided a caps op M).
  destruct (provides caps op); [|reflexivity].
  unfold call. cbn [value_of passed_as].
  rewrite (plain_wraps_int a caps E), !bool_decide_eq_true_2 by reflexivity.
  cbv iota. simpl andb. cbv iota.
  destruct op as [o|o]; unfold result_on_int.
  - unfold binary_operation, TYPE_SAFE_DETAIL_MAKE_OP.
    destruct cr; cbn; destruct (Int.binary o x y); reflexivity.
  - unfold comparison, TYPE_SAFE_DETAIL_MAKE_OP.
    destruct cr; cbn; reflexivity.
Qed.

(** X8. Take a class declared as a strong typedef and nothing else, whose
    capabilities have arithmetic types only as second argument.  With an
    operand of arithmetic type on either side of it, the viable operator
    functions are the mixed operator for the side the strong typedef stands
    on, with [Other] deduced from the other operand, when the strong typedef
    lists the mixed capability of that operator once, and the friends of
    each [random_access_iterator] base: iterator and distance for [+] and
    [-], distance and iterator for [+].  So for an operator other than [+]
    and [-], or without a [random_access_iterator] base, an operator is
    found exactly when the mixed capability is listed. *)
Theorem mixed_operator_resolution :
  forall (a : string) (T : type) (caps : list capability) (op : operator)
         (f : fundamental) (cl cr : value_category),
    classes !! a = Some (strong_typedef_class T caps) ->
    fundamental_arguments (bases_of caps) = true ->
    resolve classes op (Operand (Class a) cl) (Operand (Fundamental f) cr)
    = choose (arithmetic_rhs_candidates a caps op
                (deduce_Other (Operand (Fundamental f) cr)))
    /\ resolve classes op (Operand (Fundamental f) cl) (Operand (Class a) cr)
       = choose (arithmetic_lhs_candidates a caps op
                   (deduce_Other (Operand (Fundamental f) cl)))
    /\ ((is_plus_or_minus op = true -> distances (bases_of caps) = []) ->
        resolve classes op (Operand (Class a) cl) (Operand (Fundamental f) cr)
        = match mixed_arguments op (bases_of caps) with
          | [OtherArg] =>
              selected (mixed_rhs a OtherArg (deduce_Other (Operand (Fundamental f) cr)))
          | _ => no_viable_function
          end
        /\ resolve classes op (Operand (Fundamental f) cl) (Operand (Class a) cr)
           = match mixed_arguments op (bases_of caps) with
             | [OtherArg] =>
                 selected (mixed_lhs a OtherArg (deduce_Other (Operand (Fundamental f) cl)))
             | _ => no_viable_function
             end).
Proof.
  intros a T caps op f cl cr E F. unfold resolve.
  destruct (viable_with_fundamental a T caps op f cl cr E F) as [-> ->].
  split; [reflexivity|]. split; [reflexivity|].
  intros M.
  destruct (arithmetic_candidates_mixed a caps op
              (deduce_Other (Operand (Fundamental f) cr)) M) as [-> _].
  destruct (arithmetic_candidates_mixed a caps op
              (deduce_Other (Operand (Fundamental f) cl)) M) as [_ ->].
  destruct (mixed_arguments op (bases_of caps)) as [|A [|A' l]]; split; reflexivity.
Qed.

(** X9. Take a class declared as a strong typedef of [int] and nothing
    else, whose capabilities have arithmetic types only as second argument,
    and which, where the operator is [+] or [-], has no
    [random_access_iterator] base.  With an [int] as the other operand the
    mixed operator applies the operator of [int] with the operands in the
    order they were written: the stored value on the left when the strong
    typedef is on the left, on the right when it is on the right; without
    the mixed capability the expression is rejected. *)
Theorem mixed_operator_on_int :
  forall (a : string) (caps : list capability) (op : operator) (x y : Z)
         (cl cr : value_category),
    classes !! a = Some (strong_typedef_class (Fundamental Int) caps) ->
    fundamental_arguments (bases_of caps) = true ->
    (is_plus_or_minus op = true -> distances (bases_of caps) = []) ->
    evaluate classes op (Argument (strong_value a (Build x)) cl) (Argument (int_value y) cr)
    = match mixed_arguments op (bases_of caps) with
      | [_] => result_on_int a op x y
      | _ => rejected
      end
    /\ evaluate classes op (Argument (int_value y) cl) (Argument (strong_value a (Build x)) cr)
       = match mixed_arguments op (bases_of caps) with
         | [_] => result_on_int a op y x
         | _ => rejected
         end.
Proof.
  intros a caps op x y cl cr E F M. unfold evaluate, resolve, operand_of.
  cbn [value_of passed_as type_of_value].
  destruct (viable_with_fundamental a _ caps op Int cl cr E F) as [-> ->].
  destruct (arithmetic_candidates_mixed a caps op
              (deduce_Other (Operand (Fundamental Int) cr)) M) as [-> _].
  destruct (arithmetic_candidates_mixed a caps op
              (deduce_Other (Operand (Fundamental Int) cl)) M) as [_ ->].
  destruct (mixed_arguments op (bases_of caps)) as [|A [|A' l]]; try (split; reflexivity).
  unfold call. cbn [value_of passed_as].
  rewrite (plain_wraps_int a caps E), !bool_decide_eq_true_2 by reflexivity.
  simpl andb. cbv iota.
  unfold result_on_int, TYPE_SAFE_DETAIL_MAKE_OP_MIXED_rhs, TYPE_SAFE_DETAIL_MAKE_OP_MIXED_lhs.
  destruct op as [o|o]; split.
  - destruct cl; cbn; destruct (Int.binary o x y); reflexivity.
  - destruct cr; cbn; destruct (Int.binary o y x); reflexivity.
  - destruct cl; cbn; reflexivity.
  - destruct cr; cbn; reflexivity.
Qed.

Lemma same_class_candidates_single (a : string) (c : capability) (op : operator) :
  choose (same_class_candidates a [c] op)
  = if bool_decide (op ∈ same_type_operators c) then selected (same_type a)
    else if has_iterator_difference c op then selected (iterator_and_iterator a)
    else no_viable_function.
Proof.
  destruct c; destruct op as [[]|[]]; vm_compute; reflexivity.
Qed.

(** X10. A class declared as a strong typedef and nothing else that lists
    one capability, with an arithmetic type as second argument if it has
    one, has over two of its values exactly the operators that capability is
    declared to bring:
    [integer_arithmetic] the five arithmetic ones, [bitmask] the three
    bitwise ones, every iterator capability but [output_iterator] equality,
    and [random_access_iterator] the relational ones as well and, as a
    friend of its own, the difference of two iterators; a mixed capability
    or [bitshift] none. *)
Theorem single_capability_operators :
  forall (a : string) (T : type) (c : capability) (op : operator)
         (cl cr : value_category),
    classes !! a = Some (strong_typedef_class T [c]) ->
    fundamental_arguments (bases_of [c]) = true ->
    resolve classes op (Operand (Class a) cl) (Operand (Class a) cr)
    = if bool_decide (op ∈ same_type_operators c) then selected (same_type a)
      else if has_iterator_difference c op then selected (iterator_and_iterator a)
      else no_viable_function.
Proof.
  intros a T c op cl cr E F. unfold resolve.
  rewrite (viable_same_class a T [c] op cl cr E F).
  apply same_class_candidates_single.
Qed.


(** X13. A class that only derives from a strong typedef uses the strong
    typedef's operators: between two of its objects, and between one of
    them and the strong typedef on either side, the viable operator
    functions are those for two values of the base strong typedef, the
    difference of two iterators included.  The base is declared as a strong
    typedef and nothing else, with capabilities that have arithmetic types
    only as second argument. *)
Theorem derived_class_operators :
  forall (d a : string) (T : type) (caps : list capability) (op : operator)
         (cl cr : value_category),
    classes !! d = Some (derived_class a) ->
    classes !! a = Some (strong_typedef_class T caps) ->
    fundamental_arguments (bases_of caps) = true ->
    resolve classes op (Operand (Class d) cl) (Operand (Class d) cr)
    = choose (same_class_candidates a caps op)
    /\ resolve classes op (Operand (Class d) cl) (Operand (Class a) cr)
       = choose (same_class_candidates a caps op)
    /\ resolve classes op (Operand (Class a) cl) (Operand (Class d) cr)
       = choose (same_class_candidates a caps op).
Proof.
  intros d a T caps op cl cr Ed Ea F.
  pose proof (derived_operand d a T caps Ed Ea) as OD.
  pose proof (plain_operand a T caps Ea) as OA.
  assert (R : forall t1 t2,
             operand_of_strong_typedef classes a (bases_of caps) t1 ->
             operand_of_strong_typedef classes a (bases_of caps) t2 ->
             resolve classes op (Operand t1 cl) (Operand t2 cr)
             = choose (same_class_candidates a caps op)).
  { intros t1 t2 O1 O2. unfold resolve.
    rewrite (viable_sharing_bases a caps t1 t2 op cl cr O1 O2 F). reflexivity. }
  repeat split; apply R; assumption.
Qed.

(** X14. [underlying_type] of a strong typedef is the type it wraps, and
    it is found through inheritance: for a class that only derives from the
    strong typedef it is the same type. *)
Theorem underlying_type_through_bases :
  forall (a : string) (T : type) (caps : list capability),
    classes !! a = Some (strong_typedef_class T caps) ->
    underlying_type classes a = Some T
    /\ forall d : string,
         classes !! d = Some (derived_class a) -> underlying_type classes d = Some T.
Proof.
  intros a T caps Ea.
  assert (U : forall depth, underlying_type_upto classes depth a = Some T).
  { intros depth. destruct depth; simpl; rewrite Ea; reflexivity. }
  split; [apply U|].
  intros d Ed. destruct (size_of_declared d _ Ed) as [k Z].
  unfold underlying_type. rewrite Z. simpl. rewrite Ed. simpl. rewrite U. reflexivity.
Qed.

End resolution_facts.

(** ** The further properties on the example classes *)

Section resolution_examples.
Import Overloads.

Lemma same_type_excludes_mixed_witness :
  In (same_type "W")
     (MAKE_OP_candidates more_classes (Arithmetic Plus)
        (Operand (Class "D") lvalue) (Operand (Class "W") rvalue))
  /\ MAKE_OP_candidates more_classes (Arithmetic Plus)
       (Operand (Class "D") lvalue) (Operand (Class "W") rvalue)
     = [same_type "W"].
Proof.
  assert (I : In (same_type "W")
                (MAKE_OP_candidates more_classes (Arithmetic Plus)
                   (Operand (Class "D") lvalue) (Operand (Class "W") rvalue))).
  { vm_compute. left. reflexivity. }
  split; [exact I|].
  exact (same_type_excludes_mixed more_classes (Arithmetic Plus)
           (Operand (Class "D") lvalue) (Operand (Class "W") rvalue) "W" I).
Defined.

Lemma distinct_strong_typedefs_never_mix_witness :
  "W" <> "W2"
  /\ resolve example_classes (Comparison EqEq)
       (Operand (Class "W") lvalue) (Operand (Class "W2") lvalue)
     = no_viable_function.
Proof.
  assert (N : "W" <> "W2") by discriminate.
  split; [exact N|].
  exact (distinct_strong_typedefs_never_mix example_classes "W" "W2"
           (Fundamental Int) (Fundamental Int) [integer_arithmetic] [integer_arithmetic]
           (Comparison EqEq) lvalue lvalue eq_refl eq_refl N eq_refl eq_refl).
Defined.

Lemma same_type_operator_gating_witness :
  resolve more_classes (Comparison EqEq)
    (Operand (Class "E") lvalue) (Operand (Class "E") rvalue)
  = selected (same_type "E")
  /\ resolve more_classes (Comparison Less)
       (Operand (Class "E") lvalue) (Operand (Class "E") rvalue)
     = no_viable_function
  /\ resolve more_classes (Arithmetic Minus)
       (Operand (Class "It") lvalue) (Operand (Class "It") lvalue)
     = selected (iterator_and_iterator "It")
  /\ resolve iterator_classes (Arithmetic Minus)
       (Operand (Class "Sub") lvalue) (Operand (Class "Sub") lvalue)
     = several_viable [same_type "Sub"; iterator_and_iterator "Sub"].
Proof.
  split; [|split; [|split]].
  - exact (proj1 (proj2 (same_type_operator_gating more_classes "E" (Fundamental Int)
                           [equality_comparison] (Comparison EqEq) lvalue rvalue
                           eq_refl eq_refl)) (fun _ => eq_refl)).
  - exact (proj1 (proj2 (same_type_operator_gating more_classes "E" (Fundamental Int)
                           [equality_comparison] (Comparison Less) lvalue rvalue
                           eq_refl eq_refl)) (fun _ => eq_refl)).
  - exact (proj1 (same_type_operator_gating more_classes "It" (Class "pointer")
                    [random_access_iterator (Fundamental Long)] (Arithmetic Minus)
                    lvalue lvalue eq_refl eq_refl)).
  - exact (proj1 (same_type_operator_gating iterator_classes "Sub" (Class "pointer")
                    [random_access_iterator (Fundamental Long); subtraction]
                    (Arithmetic Minus) lvalue lvalue eq_refl eq_refl)).
Defined.

Lemma same_type_operator_on_int_witness :
  evaluate example_classes (Arithmetic Star) (temporary (W 6)) (variable (W 7))
  = yields (W 42)
  /\ evaluate example_classes (Arithmetic Slash) (variable (W 6)) (variable (W 0))
     = undefined
  /\ evaluate example_classes (Comparison Less) (variable (W 6)) (variable (W 7))
     = rejected.
Proof.
  split; [|split].
  - exact (same_type_operator_on_int example_classes "W" [integer_arithmetic]
             (Arithmetic Star) 6 7 rvalue lvalue eq_refl eq_refl (fun _ => eq_refl)).
  - exact (same_type_operator_on_int example_classes "W" [integer_arithmetic]
             (Arithmetic Slash) 6 0 lvalue lvalue eq_refl eq_refl (fun _ => eq_refl)).
  - exact (same_type_operator_on_int example_classes "W" [integer_arithmetic]
             (Comparison Less) 6 7 lvalue lvalue eq_refl eq_refl (fun _ => eq_refl)).
Defined.

Lemma mixed_operator_resolution_witness :
  resolve more_classes (Arithmetic ShiftLeft)
    (Operand (Class "N") lvalue) (Operand (Fundamental Int) rvalue)
  = selected (mixed_rhs "N" (Fundamental Int) (Qualified (Fundamental Int) false no_reference))
  /\ resolve more_classes (Arithmetic Minus)
       (Operand (Fundamental Long) lvalue) (Operand (Class "N") rvalue)
     = selected (mixed_lhs "N" (Fundamental Int)
                   (Qualified (Fundamental Long) false lvalue_reference))
  /\ resolve more_classes (Arithmetic Plus)
       (Operand (Class "N") lvalue) (Operand (Fundamental Int) rvalue)
     = no_viable_function
  /\ resolve more_classes (Arithmetic Plus)
       (Operand (Class "It") lvalue) (Operand (Fundamental Int) rvalue)
     = selected (iterator_and_distance "It")
  /\ resolve more_classes (Arithmetic Minus)
       (Operand (Fundamental Int) rvalue) (Operand (Class "It") lvalue)
     = no_viable_function.
Proof.
  split; [|split; [|split; [|split]]].
  - exact (proj1 (proj2 (proj2 (mixed_operator_resolution more_classes "N" (Fundamental Int)
                    [mixed_subtraction (Fundamental Int); bitshift (Fundamental Int)]
                    (Arithmetic ShiftLeft) Int lvalue rvalue eq_refl eq_refl))
                    (fun _ => eq_refl))).
  - exact (proj2 (proj2 (proj2 (mixed_operator_resolution more_classes "N" (Fundamental Int)
                    [mixed_subtraction (Fundamental Int); bitshift (Fundamental Int)]
                    (Arithmetic Minus) Long lvalue rvalue eq_refl eq_refl))
                    (fun _ => eq_refl))).
  - exact (proj1 (proj2 (proj2 (mixed_operator_resolution more_classes "N" (Fundamental Int)
                    [mixed_subtraction (Fundamental Int); bitshift (Fundamental Int)]
                    (Arithmetic Plus) Int lvalue rvalue eq_refl eq_refl))
                    (fun _ => eq_refl))).
  - exact (proj1 (mixed_operator_resolution more_classes "It" (Class "pointer")
                    [random_access_iterator (Fundamental Long)]
                    (Arithmetic Plus) Int lvalue rvalue eq_refl eq_refl)).
  - exact (proj1 (proj2 (mixed_operator_resolution more_classes "It" (Class "pointer")
                    [random_access_iterator (Fundamental Long)]
                    (Arithmetic Minus) Int rvalue lvalue eq_refl eq_refl))).
Defined.

Lemma mixed_operator_on_int_witness :
  evaluate more_classes (Arithmetic Minus)
    (variable (strong_value "N" (Build 10))) (temporary (int_value 3))
  = yields (strong_value "N" (Build 7))
  /\ evaluate more_classes (Arithmetic Minus)
       (temporary (int_value 3)) (variable (strong_value "N" (Build 10)))
     = yields (strong_value "N" (Build (-7)))
  /\ evaluate more_classes (Arithmetic ShiftRight)
       (variable (strong_value "N" (Build (-8)))) (temporary (int_value 1))
     = yields (strong_value "N" (Build (-4)))
  /\ evaluate more_classes (Arithmetic ShiftLeft)
       (variable (strong_value "N" (Build 1))) (temporary (int_value 31))
     = yields (strong_value "N" (Build Int.min)).
Proof.
  split; [|split; [|split]].
  - exact (proj1 (mixed_operator_on_int more_classes "N"
                    [mixed_subtraction (Fundamental Int); bitshift (Fundamental Int)]
                    (Arithmetic Minus) 10 3 lvalue rvalue
                    eq_refl eq_refl (fun _ => eq_refl))).
  - exact (proj2 (mixed_operator_on_int more_classes "N"
                    [mixed_subtraction (Fundamental Int); bitshift (Fundamental Int)]
                    (Arithmetic Minus) 10 3 rvalue lvalue
                    eq_refl eq_refl (fun _ => eq_refl))).
  - exact (proj1 (mixed_operator_on_int more_classes "N"
                    [mixed_subtraction (Fundamental Int); bitshift (Fundamental Int)]
                    (Arithmetic ShiftRight) (-8) 1 lvalue rvalue
                    eq_refl eq_refl (fun _ => eq_refl))).
  - exact (proj1 (mixed_operator_on_int more_classes "N"
                    [mixed_subtraction (Fundamental Int); bitshift (Fundamental Int)]
                    (Arithmetic ShiftLeft) 1 31 lvalue rvalue
                    eq_refl eq_refl (fun _ => eq_refl))).
Defined.

Lemma single_capability_operators_witness :
  resolve more_classes (Comparison NotEq)
    (Operand (Class "It") lvalue) (Operand (Class "It") lvalue)
  = selected (same_type "It")
  /\ resolve more_classes (Comparison GreaterEq)
       (Operand (Class "It") lvalue) (Operand (Class "It") lvalue)
     = selected (same_type "It")
  /\ resolve more_classes (Arithmetic Minus)
       (Operand (Class "It") lvalue) (Operand (Class "It") lvalue)
     = selected (iterator_and_iterator "It")
  /\ resolve more_classes (Arithmetic Star)
       (Operand (Class "It") lvalue) (Operand (Class "It") lvalue)
     = no_viable_function.
Proof.
  split; [|split; [|split]].
  - exact (single_capability_operators more_classes "It" (Class "pointer")
             (random_access_iterator (Fundamental Long)) (Comparison NotEq) lvalue lvalue
             eq_refl eq_refl).
  - exact (single_capability_operators more_classes "It" (Class "pointer")
             (random_access_iterator (Fundamental Long)) (Comparison GreaterEq) lvalue lvalue
             eq_refl eq_refl).
  - exact (single_capability_operators more_classes "It" (Class "pointer")
             (random_access_iterator (Fundamental Long)) (Arithmetic Minus) lvalue lvalue
             eq_refl eq_refl).
  - exact (single_capability_operators more_classes "It" (Class "pointer")
             (random_access_iterator (Fundamental Long)) (Arithmetic Star) lvalue lvalue
             eq_refl eq_refl).
Defined.


Lemma derived_class_operators_witness :
  resolve more_classes (Arithmetic Plus)
    (Operand (Class "D") lvalue) (Operand (Class "W") rvalue)
  = selected (same_type "W")
  /\ resolve more_classes (Comparison EqEq)
       (Operand (Class "D") lvalue) (Operand (Class "D") rvalue)
     = no_viable_function
  /\ resolve iterator_classes (Arithmetic Minus)
       (Operand (Class "DIt") lvalue) (Operand (Class "DIt") lvalue)
     = selected (iterator_and_iterator "It").
Proof.
  split; [|split].
  - exact (proj1 (proj2 (derived_class_operators more_classes "D" "W" (Fundamental Int)
                           [integer_arithmetic] (Arithmetic Plus) lvalue rvalue
                           eq_refl eq_refl eq_refl))).
  - exact (proj1 (derived_class_operators more_classes "D" "W" (Fundamental Int)
                    [integer_arithmetic] (Comparison EqEq) lvalue rvalue
                    eq_refl eq_refl eq_refl)).
  - exact (proj1 (derived_class_operators iterator_classes "DIt" "It" (Class "pointer")
                    [random_access_iterator (Fundamental Long)] (Arithmetic Minus)
                    lvalue lvalue eq_refl eq_refl eq_refl)).
Defined.

Lemma underlying_type_through_bases_witness :
  underlying_type more_classes "It" = Some (Class "pointer")
  /\ underlying_type more_classes "D" = Some (Fundamental Int).
Proof.
  split.
  - exact (proj1 (underlying_type_through_bases more_classes "It" (Class "pointer")
                    [random_access_iterator (Fundamental Long)] eq_refl)).
  - exact (proj2 (underlying_type_through_bases more_classes "W" (Fundamental Int)
                    [integer_arithmetic] eq_refl) "D" eq_refl).
Defined.

End resolution_examples.
